(** * The native OpenGL context of juce_opengl on OS X

    A shallow embedding of [OpenGLContext::NativeContext]
    (modules/juce_opengl/native/juce_OpenGL_osx.h): the pixel-format
    attribute list, the frame pacer run after every buffer swap, the
    display-link bridge and the activity test.

    Conventions.
    - A C [int] is a [Z]; arithmetic wraps to 32 bits ([wrap_int]), and the
      cast to [NSOpenGLPixelFormatAttribute] (a [uint32_t]) is [to_uint32].
    - A pointer or platform handle is an [N]; [nullptr] and [nil] are 0.
    - Calls into the operating system are threaded through a [Platform]
      value, which also keeps the ordered log of those calls. *)

From Stdlib Require Import ZArith Lia Bool List.
From Stdlib Require Import Floats.PrimFloat Floats.FloatOps Floats.SpecFloat.
From stdpp Require Import base numbers option list gmap.

Open Scope Z_scope.

(** ** Machine integers *)

Module CInt.

Definition INT_MIN : Z := - 2 ^ 31.
Definition INT_MAX : Z := 2 ^ 31 - 1.

(** Two's complement wrap-around of a 32-bit [int]. *)
Definition wrap_int (z : Z) : Z := (z + 2 ^ 31) mod 2 ^ 32 - 2 ^ 31.

Definition int_add (a b : Z) : Z := wrap_int (a + b).
Definition int_sub (a b : Z) : Z := wrap_int (a - b).
Definition int_mul (a b : Z) : Z := wrap_int (a * b).
(** C++ integer division truncates towards zero. *)
Definition int_div (a b : Z) : Z := wrap_int (Z.quot a b).

(** The conversion of an [int] to a [uint32_t]. *)
Definition to_uint32 (z : Z) : Z := z mod 2 ^ 32.

Definition in_int (z : Z) : Prop := INT_MIN <= z <= INT_MAX.

End CInt.
Import CInt.

(** ** Pixel-format negotiation *)

(** Modelled from the spec: the pixel-format request [OpenGLPixelFormat],
    whose declaration lies outside this file.  It carries the colour, depth,
    stencil and accumulation bit depths and the multisampling sample count;
    the fields are named as [createAttribs] reads them. *)
Record OpenGLPixelFormat := {
  redBits : Z;
  greenBits : Z;
  blueBits : Z;
  alphaBits : Z;
  depthBufferBits : Z;
  stencilBufferBits : Z;
  accumulationBufferRedBits : Z;
  accumulationBufferGreenBits : Z;
  accumulationBufferBlueBits : Z;
  accumulationBufferAlphaBits : Z;
  multisamplingLevel : Z
}.

(** A request is well formed when its bit depths and its sample count are
    non-negative and the sums that [createAttribs] forms fit an [int]. *)
Definition wellFormed (pf : OpenGLPixelFormat) : Prop :=
  0 <= redBits pf /\ 0 <= greenBits pf /\ 0 <= blueBits pf /\
  redBits pf + greenBits pf + blueBits pf <= INT_MAX /\
  0 <= accumulationBufferRedBits pf /\ 0 <= accumulationBufferGreenBits pf /\
  0 <= accumulationBufferBlueBits pf /\ 0 <= accumulationBufferAlphaBits pf /\
  accumulationBufferRedBits pf + accumulationBufferGreenBits pf
    + accumulationBufferBlueBits pf + accumulationBufferAlphaBits pf <= INT_MAX /\
  0 <= multisamplingLevel pf <= INT_MAX.

(** Modelled from the spec: the requested API version, an enumeration
    declared outside this file; [openGL3_2] is the threshold that
    [createAttribs] compares against. *)
Inductive OpenGLVersion := defaultGLVersion | openGL3_2.

Definition versionNumber (v : OpenGLVersion) : Z :=
  match v with defaultGLVersion => 0 | openGL3_2 => 1 end.

Definition version_ge (a b : OpenGLVersion) : bool :=
  versionNumber b <=? versionNumber a.

(** One slot of the attribute array.  The platform's named constants are kept
    symbolic (their numbers belong to the system headers); a slot written
    from a number holds that number as a [uint32_t]. *)
Inductive NSOpenGLPixelFormatAttribute :=
  | NSOpenGLPFAOpenGLProfile
  | NSOpenGLProfileVersion3_2Core
  | NSOpenGLProfileVersionLegacy
  | NSOpenGLPFADoubleBuffer
  | NSOpenGLPFAClosestPolicy
  | NSOpenGLPFANoRecovery
  | NSOpenGLPFAColorSize
  | NSOpenGLPFAAlphaSize
  | NSOpenGLPFADepthSize
  | NSOpenGLPFAStencilSize
  | NSOpenGLPFAAccumSize
  | NSOpenGLPFAMultisample
  | NSOpenGLPFASampleBuffers
  | NSOpenGLPFASamples
  | AttribValue (v : Z).

Global Instance NSOpenGLPixelFormatAttribute_eq_dec :
  EqDecision NSOpenGLPixelFormatAttribute.
Proof. solve_decision. Defined.

(** The attributes that belong to the multisample block. *)
Definition isMultisampleAttrib (a : NSOpenGLPixelFormatAttribute) : bool :=
  match a with
  | NSOpenGLPFAMultisample | NSOpenGLPFASampleBuffers | NSOpenGLPFASamples => true
  | _ => false
  end.

(** The array being filled, the running index [numAttribs], and whether a
    write has landed outside the array. *)
Record AttribBuffer := {
  attribs : list NSOpenGLPixelFormatAttribute;
  numAttribs : nat;
  overrun : bool
}.

(** [attribs [numAttribs++] = x] *)
Definition put (x : NSOpenGLPixelFormatAttribute) (b : AttribBuffer) : AttribBuffer :=
  {| attribs := <[numAttribs b := x]> (attribs b);
     numAttribs := S (numAttribs b);
     overrun := overrun b || negb (numAttribs b <? length (attribs b))%nat |}.

Notation "b '<<' x" := (put x b) (at level 50, left associativity).

(** The entries written so far. *)
Definition written (b : AttribBuffer) : list NSOpenGLPixelFormatAttribute :=
  take (numAttribs b) (attribs b).

(** [createAttribs]; [JUCE_OPENGL3] is the build flag of the [#if]. *)
Definition createAttribs (JUCE_OPENGL3 : bool)
    (array : list NSOpenGLPixelFormatAttribute) (version : OpenGLVersion)
    (pixFormat : OpenGLPixelFormat) (shouldUseMultisampling : bool) : AttribBuffer :=
  let b := {| attribs := array; numAttribs := 0; overrun := false |} in
  let b :=
    if JUCE_OPENGL3
    then b << NSOpenGLPFAOpenGLProfile
           << (if version_ge version openGL3_2 then NSOpenGLProfileVersion3_2Core
               else NSOpenGLProfileVersionLegacy)
    else b in
  let b :=
    b << NSOpenGLPFADoubleBuffer
      << NSOpenGLPFAClosestPolicy
      << NSOpenGLPFANoRecovery
      << NSOpenGLPFAColorSize
      << AttribValue (to_uint32 (int_add (int_add (redBits pixFormat) (greenBits pixFormat))
                                         (blueBits pixFormat)))
      << NSOpenGLPFAAlphaSize
      << AttribValue (to_uint32 (alphaBits pixFormat))
      << NSOpenGLPFADepthSize
      << AttribValue (to_uint32 (depthBufferBits pixFormat))
      << NSOpenGLPFAStencilSize
      << AttribValue (to_uint32 (stencilBufferBits pixFormat))
      << NSOpenGLPFAAccumSize
      << AttribValue (to_uint32
           (int_add (int_add (int_add (accumulationBufferRedBits pixFormat)
                                      (accumulationBufferGreenBits pixFormat))
                             (accumulationBufferBlueBits pixFormat))
                    (accumulationBufferAlphaBits pixFormat))) in
  if shouldUseMultisampling
  then b << NSOpenGLPFAMultisample
         << NSOpenGLPFASampleBuffers
         << AttribValue (to_uint32 1)
         << NSOpenGLPFASamples
         << AttribValue (to_uint32 (multisamplingLevel pixFormat))
  else b.

(** The constructor's array: [NSOpenGLPixelFormatAttribute attribs[64] = { 0 }]. *)
Definition attribsCapacity : nat := 64.
Definition zeroedAttribs : list NSOpenGLPixelFormatAttribute :=
  replicate attribsCapacity (AttribValue 0).

(** The value slot that follows the first occurrence of a named attribute. *)
Fixpoint valueOf (name : NSOpenGLPixelFormatAttribute)
    (l : list NSOpenGLPixelFormatAttribute) : option NSOpenGLPixelFormatAttribute :=
  match l with
  | [] => None
  | a :: rest => if decide (a = name) then head rest else valueOf name rest
  end.

(** How often an attribute occurs. *)
Definition occurrences (name : NSOpenGLPixelFormatAttribute)
    (l : list NSOpenGLPixelFormatAttribute) : nat :=
  length (filter (fun a => a = name) l).


(** ** The platform *)

(** Pointers and platform handles; 0 is [nullptr] / [nil]. *)
Definition ptr : Type := N.
Definition nullptr : ptr := 0%N.

(** A CoreVideo display link: the context pointer handed to its output
    callback ([None] while no callback is registered) and whether it has been
    started. *)
Record CVDisplayLink := {
  callbackContext : option ptr;
  running : bool
}.

(** What the program asks of the operating system, in the order it asks. *)
Inductive PlatformCall :=
  | PixelFormatCreated (pf : ptr) (attributes : list NSOpenGLPixelFormatAttribute)
  | ViewCreated (view pf : ptr)
  | ObserverAdded (view : ptr)
  | ContextCreated (rc pf share : ptr)
  | SurfaceOpacitySet (rc : ptr) (val : Z)
  | ViewContextSet (view rc : ptr)
  | ViewAttached (component view attachment : ptr)
  | ObserverRemoved (view : ptr)
  | DrawableCleared (rc : ptr)
  | ContextViewSet (rc view : ptr)
  | PixelFormatReleased (pf : ptr)
  | CurrentContextCleared
  | BufferFlushed (rc : ptr)
  | SwapIntervalSet (rc : ptr) (numFrames : Z)
  | ThreadSleep (milliseconds : Z)
  | DisplayLinkCreated (link : ptr)
  | OutputCallbackSet (link context : ptr)
  | DisplaySetFromContext (link rc pf : ptr)
  | DisplayLinkStarted (link : ptr)
  | DisplayLinkStopped (link : ptr)
  | DisplayLinkReleased (link : ptr)
  | TargetDisplayLink (target : ptr).

Record Platform := {
  (** [[NSOpenGLContext currentContext]] of the calling thread *)
  currentContext : ptr;
  (** the display links that exist *)
  displayLinks : gmap N CVDisplayLink;
  (** the next object handle the system gives out *)
  nextHandle : positive;
  (** every call made so far, oldest first *)
  calls : list PlatformCall
}.

(** Code that talks to the platform. *)
Definition IO (A : Type) : Type := Platform -> A * Platform.

Definition ret {A} (a : A) : IO A := fun p => (a, p).

Definition bind {A B} (m : IO A) (k : A -> IO B) : IO B :=
  fun p => let (a, p') := m p in k a p'.

Notation "'do' x <- m ; k" := (bind m (fun x => k))
  (at level 10, x name, m at level 100, k at level 200).
Notation "'exec' m ; k" := (bind m (fun _ => k))
  (at level 10, m at level 100, k at level 200).

Definition log (c : PlatformCall) : IO unit :=
  fun p => (tt, {| currentContext := currentContext p;
                   displayLinks := displayLinks p;
                   nextHandle := nextHandle p;
                   calls := calls p ++ [c] |}).

Definition withLinks (f : gmap N CVDisplayLink -> gmap N CVDisplayLink) : IO unit :=
  fun p => (tt, {| currentContext := currentContext p;
                   displayLinks := f (displayLinks p);
                   nextHandle := nextHandle p;
                   calls := calls p |}).

(** A fresh, non-null object handle. *)
Definition newHandle : IO ptr :=
  fun p => (Npos (nextHandle p),
            {| currentContext := currentContext p;
               displayLinks := displayLinks p;
               nextHandle := Pos.succ (nextHandle p);
               calls := calls p |}).

Definition getCurrentContext : IO ptr := fun p => (currentContext p, p).

(** [[NSOpenGLContext clearCurrentContext]] *)
Definition clearCurrentContext : IO unit :=
  fun p => (tt, {| currentContext := nullptr;
                   displayLinks := displayLinks p;
                   nextHandle := nextHandle p;
                   calls := calls p ++ [CurrentContextCleared] |}).

(** The CoreVideo calls that [setDisplayLinkTarget] makes.  A link is always
    created for the main display ([CGMainDisplayID]), and the platform is
    taken to grant it. *)
Definition CVDisplayLinkCreateWithCGDisplay : IO ptr :=
  do link <- newHandle;
  exec withLinks (insert link {| callbackContext := None; running := false |});
  exec log (DisplayLinkCreated link);
  ret link.

Definition CVDisplayLinkSetOutputCallback (link context : ptr) : IO unit :=
  exec withLinks (alter (fun l => {| callbackContext := Some context;
                                     running := running l |}) link);
  log (OutputCallbackSet link context).

Definition CVDisplayLinkSetCurrentCGDisplayFromOpenGLContext (link rc pf : ptr) : IO unit :=
  log (DisplaySetFromContext link rc pf).

Definition CVDisplayLinkStart (link : ptr) : IO unit :=
  exec withLinks (alter (fun l => {| callbackContext := callbackContext l;
                                     running := true |}) link);
  log (DisplayLinkStarted link).

Definition CVDisplayLinkStop (link : ptr) : IO unit :=
  exec withLinks (alter (fun l => {| callbackContext := callbackContext l;
                                     running := false |}) link);
  log (DisplayLinkStopped link).

Definition CVDisplayLinkRelease (link : ptr) : IO unit :=
  exec withLinks (delete link);
  log (DisplayLinkReleased link).

(** ** The native context *)

(** The data members of [NativeContext]. *)
Record NativeContext := {
  pixelFormat : ptr;
  renderContext : ptr;
  view : ptr;
  viewAttachment : ptr;
  lastSwapTime : float;
  minSwapTimeMs : Z;
  underrunCounter : Z;
  displayLinkTarget : ptr;
  displayLinkRef : ptr
}.

Definition set_renderContext (v : ptr) (nc : NativeContext) : NativeContext :=
  {| pixelFormat := pixelFormat nc; renderContext := v; view := view nc;
     viewAttachment := viewAttachment nc; lastSwapTime := lastSwapTime nc;
     minSwapTimeMs := minSwapTimeMs nc; underrunCounter := underrunCounter nc;
     displayLinkTarget := displayLinkTarget nc; displayLinkRef := displayLinkRef nc |}.

Definition set_lastSwapTime (v : float) (nc : NativeContext) : NativeContext :=
  {| pixelFormat := pixelFormat nc; renderContext := renderContext nc; view := view nc;
     viewAttachment := viewAttachment nc; lastSwapTime := v;
     minSwapTimeMs := minSwapTimeMs nc; underrunCounter := underrunCounter nc;
     displayLinkTarget := displayLinkTarget nc; displayLinkRef := displayLinkRef nc |}.

Definition set_minSwapTimeMs (v : Z) (nc : NativeContext) : NativeContext :=
  {| pixelFormat := pixelFormat nc; renderContext := renderContext nc; view := view nc;
     viewAttachment := viewAttachment nc; lastSwapTime := lastSwapTime nc;
     minSwapTimeMs := v; underrunCounter := underrunCounter nc;
     displayLinkTarget := displayLinkTarget nc; displayLinkRef := displayLinkRef nc |}.

Definition set_underrunCounter (v : Z) (nc : NativeContext) : NativeContext :=
  {| pixelFormat := pixelFormat nc; renderContext := renderContext nc; view := view nc;
     viewAttachment := viewAttachment nc; lastSwapTime := lastSwapTime nc;
     minSwapTimeMs := minSwapTimeMs nc; underrunCounter := v;
     displayLinkTarget := displayLinkTarget nc; displayLinkRef := displayLinkRef nc |}.

Definition set_displayLinkTarget (v : ptr) (nc : NativeContext) : NativeContext :=
  {| pixelFormat := pixelFormat nc; renderContext := renderContext nc; view := view nc;
     viewAttachment := viewAttachment nc; lastSwapTime := lastSwapTime nc;
     minSwapTimeMs := minSwapTimeMs nc; underrunCounter := underrunCounter nc;
     displayLinkTarget := v; displayLinkRef := displayLinkRef nc |}.

Definition set_displayLinkRef (v : ptr) (nc : NativeContext) : NativeContext :=
  {| pixelFormat := pixelFormat nc; renderContext := renderContext nc; view := view nc;
     viewAttachment := viewAttachment nc; lastSwapTime := lastSwapTime nc;
     minSwapTimeMs := minSwapTimeMs nc; underrunCounter := underrunCounter nc;
     displayLinkTarget := displayLinkTarget nc; displayLinkRef := v |}.

(** The constructor.  The platform is taken to grant every object asked for;
    [JUCE_OPENGL3] is the build flag that [createAttribs] tests. *)
Definition NativeContext_new (JUCE_OPENGL3 : bool) (component : ptr)
    (pixFormat : OpenGLPixelFormat) (contextToShare : ptr)
    (shouldUseMultisampling : bool) (version : OpenGLVersion) : IO NativeContext :=
  let attribs :=
    attribs (createAttribs JUCE_OPENGL3 zeroedAttribs version pixFormat
                           shouldUseMultisampling) in
  do pixelFormat <- newHandle;
  exec log (PixelFormatCreated pixelFormat attribs);
  do view <- newHandle;
  exec log (ViewCreated view pixelFormat);
  exec log (ObserverAdded view);
  do renderContext <- newHandle;
  exec log (ContextCreated renderContext pixelFormat contextToShare);
  let val := 1 in
  exec log (SurfaceOpacitySet renderContext val);
  exec log (ViewContextSet view renderContext);
  do viewAttachment <- newHandle;
  exec log (ViewAttached component view viewAttachment);
  ret {| pixelFormat := pixelFormat; renderContext := renderContext; view := view;
         viewAttachment := viewAttachment;
         lastSwapTime := 0%float; minSwapTimeMs := 0; underrunCounter := 0;
         displayLinkTarget := nullptr; displayLinkRef := nullptr |}.

(** The destructor [~NativeContext]. *)
Definition NativeContext_delete (nc : NativeContext) : IO NativeContext :=
  exec log (ObserverRemoved (view nc));
  exec log (DrawableCleared (renderContext nc));
  exec log (ContextViewSet (renderContext nc) nullptr);
  exec log (ViewContextSet (view nc) nullptr);
  let nc := set_renderContext nullptr nc in
  exec log (PixelFormatReleased (pixelFormat nc));
  ret nc.

Definition getRawContext (nc : NativeContext) : ptr := renderContext nc.
Definition createdOk (nc : NativeContext) : bool := negb (getRawContext nc =? nullptr)%N.

(** [isActive]: [[NSOpenGLContext currentContext] == renderContext]. *)
Definition isActive (nc : NativeContext) : IO bool :=
  do current <- getCurrentContext;
  ret (current =? renderContext nc)%N.

Definition deactivateCurrentContext : IO unit := clearCurrentContext.
Definition shutdownOnRenderThread (nc : NativeContext) : IO NativeContext :=
  exec deactivateCurrentContext; ret nc.

(** ** Frame pacing *)

(** The conversion [(int) d] of a double: truncation towards zero.  A value
    that no [int] holds (out of range, infinite or not a number) is left
    undefined by the language; the model returns what the x86-64 conversion
    instruction yields there, [INT_MIN]. *)
Definition double_to_int (d : float) : Z :=
  match Prim2SF d with
  | S754_zero _ => 0
  | S754_finite s m e =>
      let magnitude :=
        if 0 <=? e then Z.shiftl (Z.pos m) e else Z.shiftr (Z.pos m) (- e) in
      let z := if s then - magnitude else magnitude in
      if (INT_MIN <=? z) && (z <=? INT_MAX) then z else INT_MIN
  | S754_infinity _ | S754_nan => INT_MIN
  end.

(** Modelled from the spec: [isPositiveAndBelow], a helper of the framework
    core that is not part of this file; it tests that the value lies within
    [0, upperLimit). *)
Definition isPositiveAndBelow (valueToTest upperLimit : Z) : bool :=
  (0 <=? valueToTest) && (valueToTest <? upperLimit).

(** [Thread::sleep] blocks the calling thread. *)
Definition Thread_sleep (milliseconds : Z) : IO unit := log (ThreadSleep milliseconds).

(** [(int) (now - lastSwapTime)] *)
Definition elapsedSince (last now : float) : Z := double_to_int (PrimFloat.sub now last).

(** [sleepIfRenderingTooFast]; [now] is the reading that
    [Time::getMillisecondCounterHiRes] returns when it is asked. *)
Definition sleepIfRenderingTooFast (now : float) (nc : NativeContext) : IO NativeContext :=
  if 0 <? minSwapTimeMs nc then
    let elapsed := elapsedSince (lastSwapTime nc) now in
    let nc := set_lastSwapTime now nc in
    if isPositiveAndBelow elapsed (int_sub (minSwapTimeMs nc) 3) then
      if 3 <? underrunCounter nc then
        exec Thread_sleep (int_sub (minSwapTimeMs nc) elapsed);
        ret nc
      else
        ret (set_underrunCounter (int_add (underrunCounter nc) 1) nc)
    else
      ret (set_underrunCounter 0 nc)
  else ret nc.

(** [swapBuffers] *)
Definition swapBuffers (now : float) (nc : NativeContext) : IO NativeContext :=
  exec log (BufferFlushed (renderContext nc));
  sleepIfRenderingTooFast now nc.

(** [setSwapInterval]; returns [true] always. *)
Definition setSwapInterval (numFramesPerSwap : Z) (nc : NativeContext)
  : IO (bool * NativeContext) :=
  let nc := set_minSwapTimeMs (int_div (int_mul numFramesPerSwap 1000) 60) nc in
  exec log (SwapIntervalSet (renderContext nc) numFramesPerSwap);
  ret (true, nc).

(** ** The display-link bridge *)

(** [displayLinkOutputCallback]: the trampoline that CoreVideo calls with the
    context pointer registered for the link; it forwards to the target's
    [displayLink] method.  (The [jassert] on the pointer is a debug-build
    check and has no effect here.) *)
Definition displayLinkOutputCallback (displayLinkContext : ptr) : IO unit :=
  let target := displayLinkContext in
  log (TargetDisplayLink target).

(** [setDisplayLinkTarget] *)
Definition setDisplayLinkTarget (target : ptr) (nc : NativeContext) : IO NativeContext :=
  if (target =? nullptr)%N then
    do nc <-
      (if negb (displayLinkRef nc =? nullptr)%N then
         exec CVDisplayLinkStop (displayLinkRef nc);
         exec CVDisplayLinkRelease (displayLinkRef nc);
         ret (set_displayLinkRef nullptr nc)
       else ret nc);
    ret (set_displayLinkTarget nullptr nc)
  else
    do nc <-
      (if (displayLinkRef nc =? nullptr)%N then
         do link <- CVDisplayLinkCreateWithCGDisplay;
         let nc := set_displayLinkRef link nc in
         exec CVDisplayLinkSetOutputCallback (displayLinkRef nc) target;
         exec CVDisplayLinkSetCurrentCGDisplayFromOpenGLContext
                (displayLinkRef nc) (renderContext nc) (pixelFormat nc);
         ret nc
       else ret nc);
    let nc := set_displayLinkTarget target nc in
    exec CVDisplayLinkStart (displayLinkRef nc);
    ret nc.

(** One display refresh: CoreVideo runs the output callback of every link
    that is started, with the context pointer registered for it. *)
Definition vsync : IO unit :=
  fun p =>
    map_fold (fun _ l (k : IO unit) =>
                match running l, callbackContext l with
                | true, Some context => exec k; displayLinkOutputCallback context
                | _, _ => k
                end)
             (ret tt) (displayLinks p) p.

(** The targets whose [displayLink] method a platform log shows as called. *)
Definition targetsCalled (l : list PlatformCall) : list ptr :=
  omap (fun c => match c with TargetDisplayLink t => Some t | _ => None end) l.

(** The sleeps that a platform log shows. *)
Definition sleeps (l : list PlatformCall) : list Z :=
  omap (fun c => match c with ThreadSleep ms => Some ms | _ => None end) l.

(** ** Sequences of calls *)

(** Consecutive writes [attribs [numAttribs++] = x] for the [x] of a list. *)
Definition putAll (xs : list NSOpenGLPixelFormatAttribute) (b : AttribBuffer) : AttribBuffer :=
  fold_left (fun b x => b << x) xs b.

(** The calls that touch the frame-pacing state. *)
Inductive PacingCall :=
  | CallSwapBuffers (now : float)
  | CallSleepIfRenderingTooFast (now : float)
  | CallSetSwapInterval (numFramesPerSwap : Z).

Definition perform (c : PacingCall) (nc : NativeContext) : IO NativeContext :=
  match c with
  | CallSwapBuffers now => swapBuffers now nc
  | CallSleepIfRenderingTooFast now => sleepIfRenderingTooFast now nc
  | CallSetSwapInterval n => do r <- setSwapInterval n nc; ret (snd r)
  end.

Fixpoint performAll (cs : list PacingCall) (nc : NativeContext) : IO NativeContext :=
  match cs with
  | [] => ret nc
  | c :: rest => do nc <- perform c nc; performAll rest nc
  end.

(** The pacer run once per clock reading of a list, in order. *)
Definition paceAll (nows : list float) (nc : NativeContext) : IO NativeContext :=
  performAll (map CallSleepIfRenderingTooFast nows) nc.

(** The [elapsed] that each of those runs computes, the first one against
    [last]. *)
Fixpoint elapsedAll (last : float) (nows : list float) : list Z :=
  match nows with
  | [] => []
  | now :: rest => elapsedSince last now :: elapsedAll now rest
  end.

(** [setDisplayLinkTarget] called with each target of a list, in order. *)
Fixpoint setDisplayLinkTargets (targets : list ptr) (nc : NativeContext) : IO NativeContext :=
  match targets with
  | [] => ret nc
  | t :: rest => do nc <- setDisplayLinkTarget t nc; setDisplayLinkTargets rest nc
  end.

(** The display links of the platform are those of this context: none while
    [displayLinkRef] is null, and exactly that one otherwise. *)
Definition ownsItsLinks (nc : NativeContext) (p : Platform) : Prop :=
  if (displayLinkRef nc =? nullptr)%N
  then displayLinks p = ∅
  else exists l, displayLinks p = {[ displayLinkRef nc := l ]}.

(** The three blocks of entries that [createAttribs] writes, in order: the
    profile selection, the entries written for every request, and the
    multisample block. *)
Definition profileAttribs (JUCE_OPENGL3 : bool) (version : OpenGLVersion)
  : list NSOpenGLPixelFormatAttribute :=
  if JUCE_OPENGL3
  then [NSOpenGLPFAOpenGLProfile;
        if version_ge version openGL3_2 then NSOpenGLProfileVersion3_2Core
        else NSOpenGLProfileVersionLegacy]
  else [].

Definition colourSum (pf : OpenGLPixelFormat) : Z :=
  int_add (int_add (redBits pf) (greenBits pf)) (blueBits pf).

Definition accumulationSum (pf : OpenGLPixelFormat) : Z :=
  int_add (int_add (int_add (accumulationBufferRedBits pf)
                            (accumulationBufferGreenBits pf))
                   (accumulationBufferBlueBits pf))
          (accumulationBufferAlphaBits pf).

Definition baseAttribs (pf : OpenGLPixelFormat) : list NSOpenGLPixelFormatAttribute :=
  [NSOpenGLPFADoubleBuffer; NSOpenGLPFAClosestPolicy; NSOpenGLPFANoRecovery;
   NSOpenGLPFAColorSize; AttribValue (to_uint32 (colourSum pf));
   NSOpenGLPFAAlphaSize; AttribValue (to_uint32 (alphaBits pf));
   NSOpenGLPFADepthSize; AttribValue (to_uint32 (depthBufferBits pf));
   NSOpenGLPFAStencilSize; AttribValue (to_uint32 (stencilBufferBits pf));
   NSOpenGLPFAAccumSize; AttribValue (to_uint32 (accumulationSum pf))].

Definition multisampleAttribs (shouldUseMultisampling : bool) (pf : OpenGLPixelFormat)
  : list NSOpenGLPixelFormatAttribute :=
  if shouldUseMultisampling
  then [NSOpenGLPFAMultisample; NSOpenGLPFASampleBuffers; AttribValue 1;
        NSOpenGLPFASamples; AttribValue (to_uint32 (multisamplingLevel pf))]
  else [].

(** ** Activation *)

(** [[context makeCurrentContext]]: the context becomes the calling thread's
    current one.  Its effect is the [currentContext] of the platform. *)
Definition makeCurrentContext (context : ptr) : IO unit :=
  fun p => (tt, {| currentContext := context;
                   displayLinks := displayLinks p;
                   nextHandle := nextHandle p;
                   calls := calls p |}).

(** [makeActive].  The two questions it puts to the platform are answered by
    its first two arguments: [contextsView] is what [[renderContext view]]
    returns and [viewsContext] what [[view openGLContext]] returns.  (The
    [jassert] is a debug-build check.) *)
Definition makeActive (contextsView viewsContext : ptr) (nc : NativeContext) : IO bool :=
  exec (if negb (contextsView =? view nc)%N
        then log (ContextViewSet (renderContext nc) (view nc))
        else ret tt);
  let context := viewsContext in
  if negb (context =? nullptr)%N then
    exec makeCurrentContext context;
    ret true
  else
    ret false.

(** [OpenGLHelpers::isContextActive]: [CGLGetCurrentContext() != 0].  The
    thread's current CGL context is the one of its current [NSOpenGLContext],
    so the test is on [currentContext]. *)
Definition isContextActive : IO bool :=
  do current <- getCurrentContext;
  ret (negb (current =? nullptr)%N).

(** The number of entries [createAttribs] writes. *)
Definition entriesWritten (JUCE_OPENGL3 shouldUseMultisampling : bool) : nat :=
  ((if JUCE_OPENGL3 then 2 else 0) + 13 + (if shouldUseMultisampling then 5 else 0))%nat.

(** Every reading of a list lies in the range that the pacer calls too fast,
    the first against [last] and each later one against its predecessor. *)
Fixpoint allTooFast (limit : Z) (last : float) (nows : list float) : Prop :=
  match nows with
  | [] => True
  | now :: rest =>
      isPositiveAndBelow (elapsedSince last now) limit = true /\ allTooFast limit now rest
  end.

(** ** Concrete inputs used by the examples *)

Definition samplePixelFormat : OpenGLPixelFormat :=
  {| redBits := 8; greenBits := 8; blueBits := 8; alphaBits := 8;
     depthBufferBits := 16; stencilBufferBits := 0;
     accumulationBufferRedBits := 1; accumulationBufferGreenBits := 2;
     accumulationBufferBlueBits := 3; accumulationBufferAlphaBits := 4;
     multisamplingLevel := 4 |}.

(** A platform on which nothing has happened yet. *)
Definition quietPlatform : Platform :=
  {| currentContext := nullptr; displayLinks := ∅; nextHandle := 1%positive; calls := [] |}.

(** A context as the constructor leaves it, and the same context after
    [setSwapInterval (1)], which sets [minSwapTimeMs] to 16. *)
Definition freshContext : NativeContext * Platform :=
  NativeContext_new true 100%N samplePixelFormat nullptr false defaultGLVersion
                    quietPlatform.

Definition pacedContext : NativeContext * Platform :=
  let r := setSwapInterval 1 (fst freshContext) (snd freshContext) in
  (snd (fst r), snd r).

(** ** Facts about machine integers *)

Lemma wrap_int_id z : in_int z -> wrap_int z = z.
Proof.
  unfold in_int, INT_MIN, INT_MAX, wrap_int. intros H.
  rewrite Z.mod_small; lia.
Qed.

Lemma wrap_int_range z : in_int (wrap_int z).
Proof.
  unfold in_int, INT_MIN, INT_MAX, wrap_int.
  pose proof (Z.mod_pos_bound (z + 2 ^ 31) (2 ^ 32)). lia.
Qed.

Lemma to_uint32_id z : 0 <= z < 2 ^ 32 -> to_uint32 z = z.
Proof. intros H. unfold to_uint32. apply Z.mod_small. lia. Qed.

Lemma int_add_exact a b : in_int (a + b) -> int_add a b = a + b.
Proof. apply wrap_int_id. Qed.

Lemma int_sub_exact a b : in_int (a - b) -> int_sub a b = a - b.
Proof. apply wrap_int_id. Qed.

(** ** Facts about the attribute array *)

Section AttribBuffer.

Implicit Types (b : AttribBuffer) (x : NSOpenGLPixelFormatAttribute).

Lemma put_written b x :
  (numAttribs b < length (attribs b))%nat ->
  written (b << x) = written b ++ [x].
Proof.
  intros Hlt. unfold written, put; simpl.
  rewrite (take_S_r _ _ x).
  - by rewrite take_insert_ge.
  - by apply list_lookup_insert_eq.
Qed.

Lemma put_rest b x :
  drop (S (numAttribs b)) (attribs (b << x)) = drop (S (numAttribs b)) (attribs b).
Proof. unfold put; simpl. apply drop_insert_lt. lia. Qed.

Lemma put_overrun b x :
  overrun (b << x) = overrun b || negb (numAttribs b <? length (attribs b))%nat.
Proof. reflexivity. Qed.

Lemma put_length b x : length (attribs (b << x)) = length (attribs b).
Proof. unfold put; simpl. apply length_insert. Qed.

(** Writing a list of entries that fits: the entries are appended to what was
    written, nothing lands outside, and the slots beyond keep their content. *)
Lemma putAll_fits xs : forall b,
  (numAttribs b + length xs <= length (attribs b))%nat ->
  written (putAll xs b) = written b ++ xs /\
  numAttribs (putAll xs b) = (numAttribs b + length xs)%nat /\
  overrun (putAll xs b) = overrun b /\
  length (attribs (putAll xs b)) = length (attribs b) /\
  drop (numAttribs b + length xs) (attribs (putAll xs b))
    = drop (numAttribs b + length xs) (attribs b).
Proof.
  induction xs as [|x xs IH]; intros b Hfit.
  - simpl. rewrite app_nil_r, Nat.add_0_r. done.
  - simpl in Hfit. change (putAll (x :: xs) b) with (putAll xs (b << x)).
    assert (Hlt : (numAttribs b <? length (attribs b))%nat = true)
      by (apply Nat.ltb_lt; lia).
    destruct (IH (b << x)) as (Hw & Hn & Ho & Hl & Hd).
    { rewrite put_length. simpl. lia. }
    rewrite put_length in Hl. rewrite put_overrun, Hlt, orb_false_r in Ho.
    rewrite put_written in Hw by lia.
    change (numAttribs (b << x)) with (S (numAttribs b)) in Hn, Hd.
    replace (numAttribs b + length (x :: xs))%nat
      with (S (numAttribs b) + length xs)%nat by (simpl; lia).
    repeat split; try done.
    + by rewrite Hw, <- app_assoc.
    + rewrite Hd, <- !drop_drop. f_equal. apply put_rest.
Qed.

(** Past the end of the array every write is an overrun. *)
Lemma put_outside b x :
  (length (attribs b) <= numAttribs b)%nat -> overrun (b << x) = true.
Proof.
  intros H. rewrite put_overrun.
  apply Nat.ltb_ge in H as ->. apply orb_true_r.
Qed.

End AttribBuffer.

(** ** Pixel-format negotiation: what [createAttribs] writes *)

Section CreateAttribs.

Variables (JUCE_OPENGL3 : bool) (version : OpenGLVersion) (pf : OpenGLPixelFormat).

Lemma createAttribs_putAll array ms :
  createAttribs JUCE_OPENGL3 array version pf ms
  = putAll (profileAttribs JUCE_OPENGL3 version ++ baseAttribs pf ++ multisampleAttribs ms pf)
           {| attribs := array; numAttribs := 0; overrun := false |}.
Proof. destruct JUCE_OPENGL3, ms; reflexivity. Qed.

Lemma blocks_length ms :
  length (profileAttribs JUCE_OPENGL3 version ++ baseAttribs pf ++ multisampleAttribs ms pf)
  = ((if JUCE_OPENGL3 then 2 else 0) + 13 + (if ms then 5 else 0))%nat.
Proof. destruct JUCE_OPENGL3, ms; reflexivity. Qed.

(** In any array of at least twenty slots the three blocks are written in
    order from index 0, with no overrun, and the later slots are untouched. *)
Lemma createAttribs_fits array ms :
  (20 <= length array)%nat ->
  let b := createAttribs JUCE_OPENGL3 array version pf ms in
  written b = profileAttribs JUCE_OPENGL3 version ++ baseAttribs pf ++ multisampleAttribs ms pf /\
  numAttribs b = ((if JUCE_OPENGL3 then 2 else 0) + 13 + (if ms then 5 else 0))%nat /\
  overrun b = false /\
  length (attribs b) = length array /\
  drop (numAttribs b) (attribs b) = drop (numAttribs b) array.
Proof.
  intros Hlen b. subst b. rewrite createAttribs_putAll.
  set (b0 := {| attribs := array; numAttribs := 0; overrun := false |}).
  pose proof (blocks_length ms) as Hbl.
  set (xs := profileAttribs JUCE_OPENGL3 version ++ baseAttribs pf ++ multisampleAttribs ms pf)
    in *.
  destruct (putAll_fits xs b0) as (Hw & Hn & Ho & Hl & Hd).
  { rewrite Hbl. subst b0. simpl. destruct JUCE_OPENGL3, ms; simpl; lia. }
  rewrite Hbl in Hn, Hd.
  change (numAttribs b0) with 0%nat in Hn, Hd. rewrite Nat.add_0_l in Hn, Hd.
  rewrite Hn. repeat split; done.
Qed.

Lemma written_zeroed ms :
  written (createAttribs JUCE_OPENGL3 zeroedAttribs version pf ms)
  = profileAttribs JUCE_OPENGL3 version ++ baseAttribs pf ++ multisampleAttribs ms pf.
Proof. apply createAttribs_fits. unfold zeroedAttribs. rewrite length_replicate. compute; lia. Qed.

End CreateAttribs.

(** A buffer that is too short is overrun: the flag of the model is not vacuous. *)
Example createAttribs_overruns_short_array :
  overrun (createAttribs true (replicate 19 (AttribValue 0)) openGL3_2
             samplePixelFormat true) = true.
Proof. reflexivity. Qed.

Ltac by_cases_on_build :=
  intros;
  repeat match goal with x := _ |- _ => subst x end;
  rewrite ?written_zeroed;
  repeat match goal with
         | b : bool |- _ => destruct b
         | v : OpenGLVersion |- _ => destruct v
         end;
  unfold profileAttribs, baseAttribs, multisampleAttribs.

(** C3.  With multisampling off, no entry of the written sequence is a
    multisample attribute.  With multisampling on, the sequence is the one
    written with multisampling off followed by a single block: the
    multisample-enable attribute, the sample-buffers attribute with value 1,
    and the samples attribute, whose value is the uint32 image of the sample
    count and is the sample count N itself whenever 0 <= N < 2^32. *)
Theorem createAttribs_multisample_block (JUCE_OPENGL3 : bool) (version : OpenGLVersion)
    (pf : OpenGLPixelFormat) :
  let off := written (createAttribs JUCE_OPENGL3 zeroedAttribs version pf false) in
  let on := written (createAttribs JUCE_OPENGL3 zeroedAttribs version pf true) in
  Forall (fun a => isMultisampleAttrib a = false) off /\
  on = off ++ [NSOpenGLPFAMultisample; NSOpenGLPFASampleBuffers; AttribValue 1;
               NSOpenGLPFASamples; AttribValue (to_uint32 (multisamplingLevel pf))] /\
  occurrences NSOpenGLPFAMultisample on = 1%nat /\
  occurrences NSOpenGLPFASampleBuffers on = 1%nat /\
  occurrences NSOpenGLPFASamples on = 1%nat /\
  valueOf NSOpenGLPFASampleBuffers on = Some (AttribValue 1) /\
  (0 <= multisamplingLevel pf < 2 ^ 32 ->
   valueOf NSOpenGLPFASamples on = Some (AttribValue (multisamplingLevel pf))).
Proof.
  by_cases_on_build; repeat split; try reflexivity;
    try (intros H;
         transitivity (Some (AttribValue (to_uint32 (multisamplingLevel pf))));
         [reflexivity | by rewrite to_uint32_id]);
    repeat constructor.
Qed.

Lemma createAttribs_multisample_block_witness :
  0 <= multisamplingLevel samplePixelFormat < 2 ^ 32 /\
  valueOf NSOpenGLPFASamples
    (written (createAttribs true zeroedAttribs openGL3_2 samplePixelFormat true))
  = Some (AttribValue 4).
Proof.
  assert (Hrange : 0 <= multisamplingLevel samplePixelFormat < 2 ^ 32) by (simpl; lia).
  split; [exact Hrange|].
  apply (createAttribs_multisample_block true openGL3_2 samplePixelFormat), Hrange.
Defined.

(** C4.  The colour-size attribute occurs once and its value is the sum of
    the red, green and blue bit depths; the alpha size is written separately;
    the accumulation-size attribute occurs once and its value is the sum of
    the four accumulation bit depths.  The sums are formed in [int] and stored
    as uint32, which is the plain sum for every well-formed request. *)
Theorem createAttribs_colour_and_accumulation_size (JUCE_OPENGL3 : bool)
    (version : OpenGLVersion) (pf : OpenGLPixelFormat) (ms : bool) :
  let w := written (createAttribs JUCE_OPENGL3 zeroedAttribs version pf ms) in
  occurrences NSOpenGLPFAColorSize w = 1%nat /\
  occurrences NSOpenGLPFAAlphaSize w = 1%nat /\
  occurrences NSOpenGLPFAAccumSize w = 1%nat /\
  valueOf NSOpenGLPFAColorSize w
    = Some (AttribValue (to_uint32
        (int_add (int_add (redBits pf) (greenBits pf)) (blueBits pf)))) /\
  valueOf NSOpenGLPFAAlphaSize w = Some (AttribValue (to_uint32 (alphaBits pf))) /\
  valueOf NSOpenGLPFAAccumSize w
    = Some (AttribValue (to_uint32
        (int_add (int_add (int_add (accumulationBufferRedBits pf)
                                   (accumulationBufferGreenBits pf))
                          (accumulationBufferBlueBits pf))
                 (accumulationBufferAlphaBits pf)))) /\
  (wellFormed pf ->
   valueOf NSOpenGLPFAColorSize w
     = Some (AttribValue (redBits pf + greenBits pf + blueBits pf)) /\
   valueOf NSOpenGLPFAAccumSize w
     = Some (AttribValue (accumulationBufferRedBits pf + accumulationBufferGreenBits pf
                          + accumulationBufferBlueBits pf + accumulationBufferAlphaBits pf))).
Proof.
  assert (Hsums : wellFormed pf ->
    to_uint32 (colourSum pf) = redBits pf + greenBits pf + blueBits pf /\
    to_uint32 (accumulationSum pf)
      = accumulationBufferRedBits pf + accumulationBufferGreenBits pf
        + accumulationBufferBlueBits pf + accumulationBufferAlphaBits pf).
  { unfold wellFormed, colourSum, accumulationSum.
    assert (Hmax : INT_MAX = 2147483647) by reflexivity.
    assert (Hmin : INT_MIN = -2147483648) by reflexivity.
    intros (?&?&?&?&?&?&?&?&?&?).
    rewrite (int_add_exact (redBits pf)) by (unfold in_int; lia).
    rewrite (int_add_exact (accumulationBufferRedBits pf)) by (unfold in_int; lia).
    rewrite (int_add_exact (_ + accumulationBufferGreenBits pf)) by (unfold in_int; lia).
    rewrite !int_add_exact by (unfold in_int; lia).
    rewrite !to_uint32_id by lia. done. }
  by_cases_on_build; repeat split; try reflexivity;
    destruct (Hsums ltac:(assumption)) as [Hc Ha];
    first
      [ transitivity (Some (AttribValue (to_uint32 (colourSum pf))));
        [reflexivity | congruence]
      | transitivity (Some (AttribValue (to_uint32 (accumulationSum pf))));
        [reflexivity | congruence] ].
Qed.

Lemma createAttribs_colour_and_accumulation_size_witness :
  wellFormed samplePixelFormat /\
  valueOf NSOpenGLPFAColorSize
    (written (createAttribs false zeroedAttribs defaultGLVersion samplePixelFormat true))
  = Some (AttribValue 24) /\
  valueOf NSOpenGLPFAAccumSize
    (written (createAttribs false zeroedAttribs defaultGLVersion samplePixelFormat true))
  = Some (AttribValue 10).
Proof.
  assert (Hwf : wellFormed samplePixelFormat)
    by (unfold wellFormed, INT_MAX; simpl; lia).
  split; [exact Hwf|].
  apply (createAttribs_colour_and_accumulation_size
           false defaultGLVersion samplePixelFormat true), Hwf.
Defined.

(** C5 (amended).  The written sequence is fixed and ordered.  In a build
    with [JUCE_OPENGL3] it opens with the profile-selection attribute,
    followed by the 3.2 core profile when the requested version is at or above
    [openGL3_2] and by the legacy profile otherwise; in a build without
    [JUCE_OPENGL3] no profile entry is written.  Then come double buffering,
    closest policy and no recovery, then colour size, alpha size, depth size,
    stencil size and accumulation size, each with its value, and last the
    multisample block when multisampling is asked for. *)
Theorem createAttribs_order (JUCE_OPENGL3 : bool) (version : OpenGLVersion)
    (pf : OpenGLPixelFormat) (ms : bool) :
  written (createAttribs JUCE_OPENGL3 zeroedAttribs version pf ms)
  = (if JUCE_OPENGL3
     then [NSOpenGLPFAOpenGLProfile;
           if version_ge version openGL3_2 then NSOpenGLProfileVersion3_2Core
           else NSOpenGLProfileVersionLegacy]
     else [])
    ++ [NSOpenGLPFADoubleBuffer; NSOpenGLPFAClosestPolicy; NSOpenGLPFANoRecovery;
        NSOpenGLPFAColorSize;
        AttribValue (to_uint32 (int_add (int_add (redBits pf) (greenBits pf)) (blueBits pf)));
        NSOpenGLPFAAlphaSize; AttribValue (to_uint32 (alphaBits pf));
        NSOpenGLPFADepthSize; AttribValue (to_uint32 (depthBufferBits pf));
        NSOpenGLPFAStencilSize; AttribValue (to_uint32 (stencilBufferBits pf));
        NSOpenGLPFAAccumSize;
        AttribValue (to_uint32
          (int_add (int_add (int_add (accumulationBufferRedBits pf)
                                     (accumulationBufferGreenBits pf))
                            (accumulationBufferBlueBits pf))
                   (accumulationBufferAlphaBits pf)))]
    ++ (if ms
        then [NSOpenGLPFAMultisample; NSOpenGLPFASampleBuffers; AttribValue 1;
              NSOpenGLPFASamples; AttribValue (to_uint32 (multisamplingLevel pf))]
        else []).
Proof. rewrite written_zeroed. reflexivity. Qed.

(** C5 as stated fails in a build without [JUCE_OPENGL3]: version
    [openGL3_2] is requested, yet the sequence opens with the double-buffer
    attribute and holds no profile-selection attribute at all. *)
Lemma createAttribs_no_profile_without_JUCE_OPENGL3 :
  let w := written (createAttribs false zeroedAttribs openGL3_2 samplePixelFormat false) in
  version_ge openGL3_2 openGL3_2 = true /\
  head w = Some NSOpenGLPFADoubleBuffer /\
  head w <> Some NSOpenGLPFAOpenGLProfile /\
  occurrences NSOpenGLPFAOpenGLProfile w = 0%nat.
Proof. vm_compute. repeat split; discriminate. Qed.

(** C10.  [createAttribs] writes 2 profile entries (in a build with
    [JUCE_OPENGL3]), 13 base entries and 5 multisample entries (when asked
    for): at most 20, fewer than the 64 slots of the constructor's zeroed
    array.  No write lands outside the array, and every slot from index
    [numAttribs] on still holds zero, so the list stays terminated. *)
Theorem createAttribs_within_capacity (JUCE_OPENGL3 : bool) (version : OpenGLVersion)
    (pf : OpenGLPixelFormat) (ms : bool) :
  let b := createAttribs JUCE_OPENGL3 zeroedAttribs version pf ms in
  numAttribs b = ((if JUCE_OPENGL3 then 2 else 0) + 13 + (if ms then 5 else 0))%nat /\
  (numAttribs b <= 20)%nat /\
  (20 < attribsCapacity)%nat /\
  length (attribs b) = attribsCapacity /\
  overrun b = false /\
  attribs b !! numAttribs b = Some (AttribValue 0) /\
  drop (numAttribs b) (attribs b)
    = replicate (attribsCapacity - numAttribs b) (AttribValue 0).
Proof.
  intros b.
  destruct (createAttribs_fits JUCE_OPENGL3 version pf zeroedAttribs ms)
    as (_ & Hn & Ho & Hl & Hd).
  { unfold zeroedAttribs. rewrite length_replicate. unfold attribsCapacity. lia. }
  fold b in Hn, Ho, Hl, Hd.
  unfold zeroedAttribs in Hl, Hd.
  rewrite length_replicate in Hl. rewrite drop_replicate in Hd.
  assert (Hle : (numAttribs b <= 20)%nat) by (rewrite Hn; destruct JUCE_OPENGL3, ms; simpl; lia).
  repeat split; try done.
  - unfold attribsCapacity. lia.
  - rewrite <- (Nat.add_0_r (numAttribs b)), <- lookup_drop, Hd.
    apply lookup_replicate_2. unfold attribsCapacity. lia.
Qed.

(** ** Frame pacing *)

Arguments elapsedSince : simpl never.
Arguments int_sub : simpl never.
Arguments int_add : simpl never.
Arguments isPositiveAndBelow : simpl never.

Lemma performAll_cons c cs nc p :
  performAll (c :: cs) nc p
  = performAll cs (fst (perform c nc p)) (snd (perform c nc p)).
Proof. simpl. unfold bind. by destruct (perform c nc p). Qed.

Lemma performAll_app cs1 cs2 : forall nc p,
  performAll (cs1 ++ cs2) nc p
  = performAll cs2 (fst (performAll cs1 nc p)) (snd (performAll cs1 nc p)).
Proof.
  induction cs1 as [|c cs1 IH]; intros nc p; [done|].
  rewrite <- app_comm_cons, !performAll_cons. apply IH.
Qed.

Lemma paceAll_cons now nows nc p :
  paceAll (now :: nows) nc p
  = paceAll nows (fst (sleepIfRenderingTooFast now nc p))
                 (snd (sleepIfRenderingTooFast now nc p)).
Proof. apply performAll_cons. Qed.

Lemma paceAll_app nows1 nows2 nc p :
  paceAll (nows1 ++ nows2) nc p
  = paceAll nows2 (fst (paceAll nows1 nc p)) (snd (paceAll nows1 nc p)).
Proof. unfold paceAll. rewrite map_app. apply performAll_app. Qed.

(** The pacer with no minimum interval configured. *)
Lemma sleepIfRenderingTooFast_disabled now nc p :
  minSwapTimeMs nc <= 0 -> sleepIfRenderingTooFast now nc p = (nc, p).
Proof.
  intros H. unfold sleepIfRenderingTooFast.
  by apply Z.ltb_ge in H as ->.
Qed.

(** What one run of the enabled pacer does, by the three branches. *)
Lemma sleepIfRenderingTooFast_counts now nc p :
  0 < minSwapTimeMs nc ->
  isPositiveAndBelow (elapsedSince (lastSwapTime nc) now) (int_sub (minSwapTimeMs nc) 3) = true ->
  underrunCounter nc <= 3 ->
  sleepIfRenderingTooFast now nc p
  = (set_underrunCounter (int_add (underrunCounter nc) 1) (set_lastSwapTime now nc), p).
Proof.
  intros Hmin Hfast Hlow. unfold sleepIfRenderingTooFast.
  apply Z.ltb_lt in Hmin as ->. simpl. rewrite Hfast.
  by apply Z.ltb_ge in Hlow as ->.
Qed.

Lemma sleepIfRenderingTooFast_sleeps now nc p :
  0 < minSwapTimeMs nc ->
  isPositiveAndBelow (elapsedSince (lastSwapTime nc) now) (int_sub (minSwapTimeMs nc) 3) = true ->
  3 < underrunCounter nc ->
  sleepIfRenderingTooFast now nc p
  = (set_lastSwapTime now nc,
     snd (log (ThreadSleep (int_sub (minSwapTimeMs nc)
                                    (elapsedSince (lastSwapTime nc) now))) p)).
Proof.
  intros Hmin Hfast Hhigh. unfold sleepIfRenderingTooFast.
  apply Z.ltb_lt in Hmin as ->. simpl. rewrite Hfast.
  by apply Z.ltb_lt in Hhigh as ->.
Qed.

Lemma sleepIfRenderingTooFast_resets now nc p :
  0 < minSwapTimeMs nc ->
  isPositiveAndBelow (elapsedSince (lastSwapTime nc) now) (int_sub (minSwapTimeMs nc) 3) = false ->
  sleepIfRenderingTooFast now nc p
  = (set_underrunCounter 0 (set_lastSwapTime now nc), p).
Proof.
  intros Hmin Hslow. unfold sleepIfRenderingTooFast.
  apply Z.ltb_lt in Hmin as ->. simpl. by rewrite Hslow.
Qed.

(** The pacer never changes the configured interval or the other members. *)
Lemma sleepIfRenderingTooFast_minSwapTimeMs now nc p :
  minSwapTimeMs (fst (sleepIfRenderingTooFast now nc p)) = minSwapTimeMs nc.
Proof.
  unfold sleepIfRenderingTooFast.
  repeat (match goal with |- context [if ?c then _ else _] => destruct c end; simpl);
    reflexivity.
Qed.

Lemma paceAll_minSwapTimeMs nows : forall nc p,
  minSwapTimeMs (fst (paceAll nows nc p)) = minSwapTimeMs nc.
Proof.
  induction nows as [|now nows IH]; intros nc p; [done|].
  rewrite paceAll_cons, IH. apply sleepIfRenderingTooFast_minSwapTimeMs.
Qed.

Lemma sleeps_app l1 l2 : sleeps (l1 ++ l2) = sleeps l1 ++ sleeps l2.
Proof. apply omap_app. Qed.

Lemma swapBuffers_disabled now nc p :
  minSwapTimeMs nc <= 0 ->
  fst (swapBuffers now nc p) = nc /\
  sleeps (calls (snd (swapBuffers now nc p))) = sleeps (calls p).
Proof.
  intros H. unfold swapBuffers, bind. simpl.
  rewrite sleepIfRenderingTooFast_disabled by done. simpl.
  by rewrite sleeps_app, app_nil_r.
Qed.

(** C7.  With [minSwapTimeMs <= 0] any sequence of pacer runs, whatever the
    clock readings, leaves the context and the platform as they were: no
    sleep, [underrunCounter] and [lastSwapTime] untouched.  The same holds of
    the context, and of the sleeps seen by the platform, when each run comes
    after a buffer swap. *)
Theorem pacer_disabled_is_noop (nc : NativeContext) (p : Platform) (nows : list float) :
  minSwapTimeMs nc <= 0 ->
  paceAll nows nc p = (nc, p) /\
  fst (performAll (map CallSwapBuffers nows) nc p) = nc /\
  sleeps (calls (snd (performAll (map CallSwapBuffers nows) nc p))) = sleeps (calls p).
Proof.
  intros Hoff. split.
  - induction nows as [|now nows IH]; [done|].
    by rewrite paceAll_cons, sleepIfRenderingTooFast_disabled.
  - revert p. induction nows as [|now nows IH]; intros p; [done|].
    rewrite map_cons, performAll_cons.
    change (perform (CallSwapBuffers now) nc p) with (swapBuffers now nc p).
    destruct (swapBuffers_disabled now nc p Hoff) as [-> <-]. apply IH.
Qed.

Lemma pacer_disabled_is_noop_witness :
  let r := NativeContext_new true 100%N samplePixelFormat nullptr false defaultGLVersion
             quietPlatform in
  minSwapTimeMs (fst r) = 0 /\ underrunCounter (fst r) = 0 /\
  paceAll [2%float; 4%float; 100%float] (fst r) (snd r) = r.
Proof.
  intros r. split; [reflexivity | split; [reflexivity | ]].
  rewrite (surjective_pairing r) at 3.
  apply (pacer_disabled_is_noop (fst r) (snd r) [2%float; 4%float; 100%float]).
  vm_compute. discriminate.
Defined.

(** C1.  With [minSwapTimeMs = 16] and [underrunCounter = 0], five runs of the
    pacer that each compute [elapsed = 2]: the first four make no platform
    call (no sleep) and leave the counter at 1, 2, 3 and 4; the fifth sleeps
    for exactly [minSwapTimeMs - elapsed = 14] milliseconds and leaves the
    counter at 4.  After any further pacer runs, a run that computes
    [elapsed >= 13] sets the counter to zero without sleeping. *)
Theorem pacer_sleeps_on_fifth_fast_swap (nc : NativeContext) (p : Platform)
    (n1 n2 n3 n4 n5 : float) :
  minSwapTimeMs nc = 16 ->
  underrunCounter nc = 0 ->
  elapsedAll (lastSwapTime nc) [n1; n2; n3; n4; n5] = [2; 2; 2; 2; 2] ->
  (let r := paceAll [n1] nc p in underrunCounter (fst r) = 1 /\ snd r = p) /\
  (let r := paceAll [n1; n2] nc p in underrunCounter (fst r) = 2 /\ snd r = p) /\
  (let r := paceAll [n1; n2; n3] nc p in underrunCounter (fst r) = 3 /\ snd r = p) /\
  (let r := paceAll [n1; n2; n3; n4] nc p in underrunCounter (fst r) = 4 /\ snd r = p) /\
  (let r := paceAll [n1; n2; n3; n4; n5] nc p in
   underrunCounter (fst r) = 4 /\
   calls (snd r) = calls p ++ [ThreadSleep (minSwapTimeMs nc - 2)] /\
   sleeps (calls (snd r)) = sleeps (calls p) ++ [14]) /\
  (forall (later : list float) (now : float),
     let before := paceAll ([n1; n2; n3; n4; n5] ++ later) nc p in
     let r := sleepIfRenderingTooFast now (fst before) (snd before) in
     13 <= elapsedSince (lastSwapTime (fst before)) now ->
     underrunCounter (fst r) = 0 /\ snd r = snd before).
Proof.
  intros Hmin Hzero Helapsed. simpl in Helapsed.
  injection Helapsed as H1 H2 H3 H4 H5.
  assert (Hfast : isPositiveAndBelow 2 (int_sub 16 3) = true) by reflexivity.
  pose (c1 := set_underrunCounter 1 (set_lastSwapTime n1 nc)).
  pose (c2 := set_underrunCounter 2 (set_lastSwapTime n2 c1)).
  pose (c3 := set_underrunCounter 3 (set_lastSwapTime n3 c2)).
  pose (c4 := set_underrunCounter 4 (set_lastSwapTime n4 c3)).
  assert (S1 : sleepIfRenderingTooFast n1 nc p = (c1, p)).
  { rewrite sleepIfRenderingTooFast_counts; rewrite ?Hmin, ?Hzero, ?H1; done. }
  assert (S2 : sleepIfRenderingTooFast n2 c1 p = (c2, p)).
  { rewrite sleepIfRenderingTooFast_counts; simpl; rewrite ?Hmin, ?H2; done. }
  assert (S3 : sleepIfRenderingTooFast n3 c2 p = (c3, p)).
  { rewrite sleepIfRenderingTooFast_counts; simpl; rewrite ?Hmin, ?H3; done. }
  assert (S4 : sleepIfRenderingTooFast n4 c3 p = (c4, p)).
  { rewrite sleepIfRenderingTooFast_counts; simpl; rewrite ?Hmin, ?H4; done. }
  assert (S5 : sleepIfRenderingTooFast n5 c4 p
               = (set_lastSwapTime n5 c4, snd (log (ThreadSleep 14) p))).
  { rewrite sleepIfRenderingTooFast_sleeps; simpl; rewrite ?Hmin, ?H5; done. }
  assert (Hreset : forall s q now,
            minSwapTimeMs s = 16 -> 13 <= elapsedSince (lastSwapTime s) now ->
            sleepIfRenderingTooFast now s q = (set_underrunCounter 0 (set_lastSwapTime now s), q)).
  { intros s q now Hs Hslow.
    apply sleepIfRenderingTooFast_resets; [lia|].
    rewrite Hs. change (int_sub 16 3) with 13.
    unfold isPositiveAndBelow. apply andb_false_iff. right. apply Z.ltb_ge. lia. }
  assert (Hnil : forall s q, paceAll [] s q = (s, q)) by done.
  repeat split;
    repeat match goal with
           | x := paceAll _ _ _ |- _ => subst x
           | x := sleepIfRenderingTooFast _ _ _ |- _ => subst x
           end;
    try (rewrite Hreset; [done | by rewrite paceAll_minSwapTimeMs | done]);
    rewrite ?paceAll_cons;
    repeat (first [rewrite S1 | rewrite S2 | rewrite S3 | rewrite S4 | rewrite S5];
            cbn [fst snd]);
    rewrite Hnil; try done.
  - simpl. by rewrite Hmin.
  - simpl. by rewrite sleeps_app.
Qed.

Lemma pacer_sleeps_on_fifth_fast_swap_witness :
  let nc := fst pacedContext in
  let p := snd pacedContext in
  let nows := [2%float; 4%float; 6%float; 8%float; 10%float] in
  (minSwapTimeMs nc = 16 /\ underrunCounter nc = 0 /\
   elapsedAll (lastSwapTime nc) nows = [2; 2; 2; 2; 2]) /\
  sleeps (calls (snd (paceAll [2%float; 4%float; 6%float; 8%float] nc p))) = [] /\
  sleeps (calls (snd (paceAll nows nc p))) = [14] /\
  underrunCounter (fst (paceAll nows nc p)) = 4 /\
  underrunCounter
    (fst (sleepIfRenderingTooFast 30%float (fst (paceAll nows nc p))
                                  (snd (paceAll nows nc p)))) = 0.
Proof.
  intros nc p nows.
  assert (H1 : minSwapTimeMs nc = 16) by reflexivity.
  assert (H2 : underrunCounter nc = 0) by reflexivity.
  assert (H3 : elapsedAll (lastSwapTime nc) nows = [2; 2; 2; 2; 2]) by reflexivity.
  destruct (pacer_sleeps_on_fifth_fast_swap
              nc p 2%float 4%float 6%float 8%float 10%float H1 H2 H3)
    as (_ & _ & _ & [_ Hfour] & (Hcount & _ & Hsleep) & Hlater).
  split; [by repeat split|].
  split; [cbv zeta in Hfour; by rewrite Hfour|].
  split; [exact Hsleep|].
  split; [exact Hcount|].
  apply (Hlater [] 30%float). vm_compute. discriminate.
Defined.

(** ** The underrun counter stays within 0..4 *)

Lemma sleepIfRenderingTooFast_bounded now nc p :
  0 <= underrunCounter nc <= 4 ->
  0 <= underrunCounter (fst (sleepIfRenderingTooFast now nc p)) <= 4.
Proof.
  intros Hb. unfold sleepIfRenderingTooFast.
  destruct (0 <? minSwapTimeMs nc); [|done]. simpl.
  destruct (isPositiveAndBelow _ _); [|simpl; lia].
  destruct (3 <? underrunCounter nc) eqn:Hc; simpl; [done|].
  apply Z.ltb_ge in Hc.
  rewrite int_add_exact; [lia|]. unfold in_int, INT_MIN, INT_MAX. lia.
Qed.

Lemma perform_bounded c nc p :
  0 <= underrunCounter nc <= 4 ->
  0 <= underrunCounter (fst (perform c nc p)) <= 4.
Proof.
  intros Hb. destruct c as [now|now|n]; simpl.
  - unfold swapBuffers, bind; simpl. by apply sleepIfRenderingTooFast_bounded.
  - by apply sleepIfRenderingTooFast_bounded.
  - done.
Qed.

Lemma performAll_bounded cs : forall nc p,
  0 <= underrunCounter nc <= 4 ->
  0 <= underrunCounter (fst (performAll cs nc p)) <= 4.
Proof.
  induction cs as [|c cs IH]; intros nc p Hb; [done|].
  rewrite performAll_cons. by apply IH, perform_bounded.
Qed.

Lemma NativeContext_new_pacing J component pf share ms version p0 :
  let nc := fst (NativeContext_new J component pf share ms version p0) in
  minSwapTimeMs nc = 0 /\ underrunCounter nc = 0 /\
  displayLinkTarget nc = nullptr /\ displayLinkRef nc = nullptr.
Proof. done. Qed.

(** C9.  From construction on, after any sequence of [swapBuffers],
    [sleepIfRenderingTooFast] and [setSwapInterval] calls, with any clock
    readings and any intervals, [underrunCounter] lies in 0..4.  One run of
    the pacer leaves the counter as it was, adds one to it (only when it was at
    most 3), or sets it to zero; a run that sleeps leaves it as it was; and a
    run whose [elapsed] lies outside [0, minSwapTimeMs - 3) sets it to zero.
    ([elapsed] exists only in a run with [minSwapTimeMs > 0]: the code computes
    it inside that guard.) *)
Theorem underrunCounter_bounded :
  (forall J component pf share ms version p0 (cs : list PacingCall),
     let start := NativeContext_new J component pf share ms version p0 in
     0 <= underrunCounter (fst (performAll cs (fst start) (snd start))) <= 4) /\
  (forall nc p now,
     let r := sleepIfRenderingTooFast now nc p in
     let elapsed := elapsedSince (lastSwapTime nc) now in
     0 <= underrunCounter nc <= 4 ->
     (underrunCounter (fst r) = underrunCounter nc \/
      (underrunCounter nc <= 3 /\ underrunCounter (fst r) = underrunCounter nc + 1) \/
      underrunCounter (fst r) = 0) /\
     (sleeps (calls (snd r)) <> sleeps (calls p) ->
      underrunCounter (fst r) = underrunCounter nc) /\
     (0 < minSwapTimeMs nc <= INT_MAX ->
      ~ (0 <= elapsed < minSwapTimeMs nc - 3) ->
      underrunCounter (fst r) = 0)).
Proof.
  split.
  - intros. apply performAll_bounded. subst start. simpl. lia.
  - intros nc p now r elapsed Hb. subst r elapsed.
    unfold sleepIfRenderingTooFast.
    destruct (0 <? minSwapTimeMs nc) eqn:Hmin; simpl.
    { apply Z.ltb_lt in Hmin.
      destruct (isPositiveAndBelow _ _) eqn:Hin; simpl.
      - destruct (3 <? underrunCounter nc) eqn:Hc; simpl.
        + split; [by left|]. split; [done|].
          intros Hrange Hout. exfalso. apply Hout.
          unfold isPositiveAndBelow in Hin. apply andb_prop in Hin as [H0 H1].
          apply Z.leb_le in H0. apply Z.ltb_lt in H1.
          rewrite int_sub_exact in H1; [lia|].
          unfold in_int, INT_MIN, INT_MAX in *. lia.
        + apply Z.ltb_ge in Hc.
          rewrite int_add_exact by (unfold in_int, INT_MIN, INT_MAX; lia).
          split; [right; left; done|]. split; [done|].
          intros Hrange Hout. exfalso. apply Hout.
          unfold isPositiveAndBelow in Hin. apply andb_prop in Hin as [H0 H1].
          apply Z.leb_le in H0. apply Z.ltb_lt in H1.
          rewrite int_sub_exact in H1; [lia|].
          unfold in_int, INT_MIN, INT_MAX in *. lia.
      - split; [by right; right|]. split; done. }
    apply Z.ltb_ge in Hmin.
    split; [by left|]. split; [done|]. lia.
Qed.

Lemma underrunCounter_bounded_witness :
  let nc := fst pacedContext in
  let r := sleepIfRenderingTooFast 30%float nc (snd pacedContext) in
  (0 <= underrunCounter nc <= 4 /\ 0 < minSwapTimeMs nc <= INT_MAX /\
   ~ (0 <= elapsedSince (lastSwapTime nc) 30%float < minSwapTimeMs nc - 3)) /\
  underrunCounter (fst r) = 0.
Proof.
  intros nc r.
  assert (Hb : 0 <= underrunCounter nc <= 4) by (vm_compute; split; discriminate).
  assert (Hm : 0 < minSwapTimeMs nc <= INT_MAX) by (vm_compute; split; [done|discriminate]).
  assert (Ho : ~ (0 <= elapsedSince (lastSwapTime nc) 30%float < minSwapTimeMs nc - 3)).
  { vm_compute. intros [_ H]. discriminate H. }
  split; [done|].
  destruct underrunCounter_bounded as [_ Hstep].
  destruct (Hstep nc (snd pacedContext) 30%float Hb) as (_ & _ & Hreset).
  exact (Hreset Hm Ho).
Defined.

(** ** The display-link bridge *)

Lemma set_null_unreferenced nc :
  displayLinkRef nc = nullptr -> set_displayLinkRef nullptr nc = nc.
Proof. destruct nc; simpl. by intros ->. Qed.

Lemma set_null_untargeted nc :
  displayLinkTarget nc = nullptr -> set_displayLinkTarget nullptr nc = nc.
Proof. destruct nc; simpl. by intros ->. Qed.

(** Clearing the target while no link exists touches nothing on the platform. *)
Lemma setDisplayLinkTarget_null_without_link nc p :
  displayLinkRef nc = nullptr ->
  setDisplayLinkTarget nullptr nc p = (set_displayLinkTarget nullptr nc, p).
Proof. intros H. unfold setDisplayLinkTarget, bind, ret. simpl. by rewrite H. Qed.

(** Clearing the target while a link exists stops and releases that link. *)
Lemma setDisplayLinkTarget_null_with_link nc p :
  displayLinkRef nc <> nullptr ->
  setDisplayLinkTarget nullptr nc p
  = (set_displayLinkTarget nullptr (set_displayLinkRef nullptr nc),
     {| currentContext := currentContext p;
        displayLinks := delete (displayLinkRef nc) (displayLinks p);
        nextHandle := nextHandle p;
        calls := calls p ++ [DisplayLinkStopped (displayLinkRef nc);
                             DisplayLinkReleased (displayLinkRef nc)] |}).
Proof.
  intros H. apply N.eqb_neq in H.
  unfold setDisplayLinkTarget, bind, ret. simpl. rewrite H. simpl.
  by rewrite delete_alter_eq, <- app_assoc.
Qed.

(** C6.  [setDisplayLinkTarget (nullptr)]: the stored target and the link
    handle end up null; if a link existed, the platform sees exactly a stop
    and a release of it and the link is gone, and if none existed the platform
    sees nothing.  A second call right after the first changes neither the
    context nor the platform, so the release path does not run again; and
    when there was neither link nor target, the first call changes nothing
    either. *)
Theorem setDisplayLinkTarget_null_idempotent (nc : NativeContext) (p : Platform) :
  let r1 := setDisplayLinkTarget nullptr nc p in
  let r2 := setDisplayLinkTarget nullptr (fst r1) (snd r1) in
  fst r1 = set_displayLinkTarget nullptr (set_displayLinkRef nullptr nc) /\
  displayLinkTarget (fst r1) = nullptr /\
  displayLinkRef (fst r1) = nullptr /\
  snd r1 = (if (displayLinkRef nc =? nullptr)%N then p
            else {| currentContext := currentContext p;
                    displayLinks := delete (displayLinkRef nc) (displayLinks p);
                    nextHandle := nextHandle p;
                    calls := calls p ++ [DisplayLinkStopped (displayLinkRef nc);
                                         DisplayLinkReleased (displayLinkRef nc)] |}) /\
  r2 = r1 /\
  (displayLinkRef nc = nullptr -> displayLinkTarget nc = nullptr -> r1 = (nc, p)).
Proof.
  intros r1 r2.
  assert (H1 : fst r1 = set_displayLinkTarget nullptr (set_displayLinkRef nullptr nc) /\
               snd r1 = (if (displayLinkRef nc =? nullptr)%N then p
                         else {| currentContext := currentContext p;
                                 displayLinks := delete (displayLinkRef nc) (displayLinks p);
                                 nextHandle := nextHandle p;
                                 calls := calls p ++ [DisplayLinkStopped (displayLinkRef nc);
                                                      DisplayLinkReleased (displayLinkRef nc)] |})).
  { subst r1. destruct (displayLinkRef nc =? nullptr)%N eqn:Href.
    - apply N.eqb_eq in Href.
      rewrite setDisplayLinkTarget_null_without_link by done.
      by rewrite set_null_unreferenced.
    - apply N.eqb_neq in Href.
      by rewrite setDisplayLinkTarget_null_with_link. }
  destruct H1 as [Hnc Hp].
  assert (Hr1 : r1 = (fst r1, snd r1)) by apply surjective_pairing.
  repeat split; try done.
  - by rewrite Hnc.
  - by rewrite Hnc.
  - subst r2. rewrite setDisplayLinkTarget_null_without_link by by rewrite Hnc.
    rewrite set_null_untargeted by by rewrite Hnc.
    done.
  - intros Href Htarget. rewrite Hr1, Hnc, Hp, Href. simpl.
    by rewrite set_null_unreferenced, set_null_untargeted.
Qed.

Lemma setDisplayLinkTarget_null_idempotent_witness :
  displayLinkRef (fst freshContext) = nullptr /\
  displayLinkTarget (fst freshContext) = nullptr /\
  setDisplayLinkTarget nullptr (fst freshContext) (snd freshContext) = freshContext.
Proof.
  split; [reflexivity | split; [reflexivity | ]].
  rewrite (surjective_pairing freshContext) at 3.
  apply (setDisplayLinkTarget_null_idempotent (fst freshContext) (snd freshContext));
    reflexivity.
Defined.

(** The release path does run when a link exists: after a target has been
    registered, clearing it stops and releases the link, once. *)
Example setDisplayLinkTarget_null_releases_once :
  let r0 := setDisplayLinkTarget 7%N (fst freshContext) (snd freshContext) in
  let r1 := setDisplayLinkTarget nullptr (fst r0) (snd r0) in
  let r2 := setDisplayLinkTarget nullptr (fst r1) (snd r1) in
  displayLinkRef (fst r0) = 5%N /\
  calls (snd r1) = calls (snd r0) ++ [DisplayLinkStopped 5%N; DisplayLinkReleased 5%N] /\
  displayLinks (snd r1) = ∅ /\
  r2 = r1.
Proof. vm_compute. done. Qed.

(** Registering a target while no link exists: a link is created, its output
    callback is bound to that target, and it is started. *)
Lemma setDisplayLinkTarget_creates target nc p :
  target <> nullptr ->
  displayLinkRef nc = nullptr ->
  let link := Npos (nextHandle p) in
  setDisplayLinkTarget target nc p
  = (set_displayLinkTarget target (set_displayLinkRef link nc),
     {| currentContext := currentContext p;
        displayLinks :=
          <[link := {| callbackContext := Some target; running := true |}]> (displayLinks p);
        nextHandle := Pos.succ (nextHandle p);
        calls := calls p ++ [DisplayLinkCreated link;
                             OutputCallbackSet link target;
                             DisplaySetFromContext link (renderContext nc) (pixelFormat nc);
                             DisplayLinkStarted link] |}).
Proof.
  intros Ht Href link. apply N.eqb_neq in Ht.
  unfold setDisplayLinkTarget, bind, ret. rewrite Ht, Href. simpl.
  rewrite !alter_insert_eq. simpl.
  by rewrite <- !app_assoc.
Qed.

(** Registering a target while a link exists: the link is started again and
    the member [displayLinkTarget] is overwritten; the callback registered
    with the link is not touched. *)
Lemma setDisplayLinkTarget_restarts target nc p :
  target <> nullptr ->
  displayLinkRef nc <> nullptr ->
  setDisplayLinkTarget target nc p
  = (set_displayLinkTarget target nc,
     {| currentContext := currentContext p;
        displayLinks :=
          alter (fun l => {| callbackContext := callbackContext l; running := true |})
                (displayLinkRef nc) (displayLinks p);
        nextHandle := nextHandle p;
        calls := calls p ++ [DisplayLinkStarted (displayLinkRef nc)] |}).
Proof.
  intros Ht Href. apply N.eqb_neq in Ht. apply N.eqb_neq in Href.
  unfold setDisplayLinkTarget, bind, ret. rewrite Ht, Href. by simpl.
Qed.

(** One call keeps the links of the platform those of the context. *)
Lemma setDisplayLinkTarget_ownsItsLinks target nc p :
  ownsItsLinks nc p ->
  ownsItsLinks (fst (setDisplayLinkTarget target nc p))
               (snd (setDisplayLinkTarget target nc p)).
Proof.
  unfold ownsItsLinks. intros Hown.
  destruct (N.eq_dec target nullptr) as [->|Ht];
    destruct (N.eq_dec (displayLinkRef nc) nullptr) as [Href|Href].
  - rewrite setDisplayLinkTarget_null_without_link by done. simpl.
    rewrite Href in *. done.
  - rewrite setDisplayLinkTarget_null_with_link by done. simpl.
    apply N.eqb_neq in Href. rewrite Href in Hown. destruct Hown as [l ->].
    apply delete_singleton_eq.
  - rewrite setDisplayLinkTarget_creates by done. simpl.
    rewrite Href in Hown. simpl in Hown. rewrite Hown, insert_empty. eauto.
  - rewrite setDisplayLinkTarget_restarts by done. simpl.
    apply N.eqb_neq in Href. rewrite Href in *. destruct Hown as [l ->].
    rewrite alter_singleton_eq. eauto.
Qed.

(** At most one display link exists, whatever the sequence of calls. *)
Lemma setDisplayLinkTargets_at_most_one targets : forall nc p,
  ownsItsLinks nc p ->
  let r := setDisplayLinkTargets targets nc p in
  ownsItsLinks (fst r) (snd r) /\ (size (displayLinks (snd r)) <= 1)%nat.
Proof.
  induction targets as [|t targets IH]; intros nc p Hown; simpl.
  - split; [done|]. unfold ownsItsLinks in Hown.
    destruct (displayLinkRef nc =? nullptr)%N.
    + rewrite Hown, map_size_empty. lia.
    + destruct Hown as [l ->]. rewrite map_size_singleton. lia.
  - unfold bind.
    pose proof (setDisplayLinkTarget_ownsItsLinks t nc p Hown) as Hstep.
    destruct (setDisplayLinkTarget t nc p) as [nc' p']. by apply IH.
Qed.

(** A display refresh with a single started link calls the target that the
    link's callback was registered with. *)
Lemma vsync_single_link link context p :
  displayLinks p = {[ link := {| callbackContext := Some context; running := true |} ]} ->
  vsync p = (tt, snd (log (TargetDisplayLink context) p)).
Proof.
  intros Hlinks. unfold vsync. rewrite Hlinks, map_fold_singleton. done.
Qed.

(** Registering [t2] after [t1] without clearing in between: the member
    [displayLinkTarget] becomes [t2], one link exists, and a display refresh
    still calls [t1]. *)
Lemma retarget_keeps_first_callback nc p t1 t2 :
  t1 <> nullptr -> t2 <> nullptr ->
  displayLinkRef nc = nullptr -> displayLinks p = ∅ ->
  let r := (do nc <- setDisplayLinkTarget t1 nc;
            do nc <- setDisplayLinkTarget t2 nc;
            exec vsync; ret nc) p in
  displayLinkTarget (fst r) = t2 /\
  size (displayLinks (snd r)) = 1%nat /\
  targetsCalled (calls (snd r)) = targetsCalled (calls p) ++ [t1].
Proof.
  intros H1 H2 Href Hlinks r. subst r. unfold bind.
  rewrite setDisplayLinkTarget_creates by done. cbv beta iota.
  rewrite setDisplayLinkTarget_restarts by done. cbv beta iota.
  cbn [displayLinkRef set_displayLinkTarget set_displayLinkRef displayLinks calls
       currentContext nextHandle].
  rewrite Hlinks, insert_empty, alter_singleton_eq.
  cbn [callbackContext].
  erewrite vsync_single_link by reflexivity.
  unfold ret, log. cbn [fst snd displayLinks calls displayLinkTarget set_displayLinkTarget].
  rewrite map_size_singleton.
  unfold targetsCalled. rewrite !omap_app. simpl.
  by rewrite !app_nil_r.
Qed.

(** C2 (code at the failing input).  On a fresh context, register target 7,
    then target 9, then let the display refresh once: a single link exists and
    the member [displayLinkTarget] holds 9, but the callback registered with
    the link still carries 7, so it is target 7 whose [displayLink] is called,
    and target 9 is never called. *)
Theorem displayLink_callback_not_retargeted :
  let r := (do nc <- setDisplayLinkTarget 7%N (fst freshContext);
            do nc <- setDisplayLinkTarget 9%N nc;
            exec vsync; ret nc) (snd freshContext) in
  displayLinkTarget (fst r) = 9%N /\
  size (displayLinks (snd r)) = 1%nat /\
  displayLinks (snd r) !! displayLinkRef (fst r)
    = Some {| callbackContext := Some 7%N; running := true |} /\
  targetsCalled (calls (snd r)) = [7%N].
Proof.
  destruct (retarget_keeps_first_callback (fst freshContext) (snd freshContext) 7%N 9%N)
    as (Htarget & Hsize & Hcalled); [done..|].
  split; [exact Htarget|]. split; [exact Hsize|]. split; [|exact Hcalled].
  by vm_compute.
Qed.

(** ** The activity test *)

(** The destructor nulls [renderContext] and leaves the thread's current
    context alone. *)
Lemma NativeContext_delete_effect nc p :
  let r := NativeContext_delete nc p in
  fst r = set_renderContext nullptr nc /\
  currentContext (snd r) = currentContext p /\
  displayLinks (snd r) = displayLinks p.
Proof. done. Qed.



(** While the context lives and no context is current, [isActive] is false. *)
Example isActive_false_before_teardown :
  fst (isActive (fst freshContext) (snd freshContext)) = false.
Proof. reflexivity. Qed.

(** * Further properties of the code *)

(** ** The attribute array at its bounds *)

Lemma putAll_length xs : forall b, length (attribs (putAll xs b)) = length (attribs b).
Proof.
  induction xs as [|x xs IH]; intros b; [done|].
  change (putAll (x :: xs) b) with (putAll xs (b << x)).
  by rewrite IH, put_length.
Qed.

Lemma putAll_numAttribs xs : forall b,
  numAttribs (putAll xs b) = (numAttribs b + length xs)%nat.
Proof.
  induction xs as [|x xs IH]; intros b; simpl; [lia|].
  change (fold_left (fun b x => b << x) xs (b << x)) with (putAll xs (b << x)).
  rewrite IH. simpl. lia.
Qed.

(** A run of writes overruns exactly when it does not fit. *)
Lemma putAll_overrun xs : forall b,
  overrun (putAll xs b)
  = overrun b || (negb (length xs =? 0)%nat
                  && negb (numAttribs b + length xs <=? length (attribs b))%nat).
Proof.
  induction xs as [|x xs IH]; intros b.
  - simpl. by rewrite orb_false_r.
  - change (putAll (x :: xs) b) with (putAll xs (b << x)).
    rewrite IH, put_overrun, put_length.
    change (numAttribs (b << x)) with (S (numAttribs b)).
    change (length (x :: xs)) with (S (length xs)).
    change (S (length xs) =? 0)%nat with false.
    destruct (overrun b); [done|]. rewrite !orb_false_l.
    destruct (Nat.ltb_spec (numAttribs b) (length (attribs b)));
      destruct (Nat.leb_spec (S (numAttribs b) + length xs) (length (attribs b)));
      destruct (Nat.leb_spec (numAttribs b + S (length xs)) (length (attribs b)));
      destruct (Nat.eqb_spec (length xs) 0); cbn [negb orb andb]; try done; lia.
Qed.

(** X1.  [createAttribs] always advances [numAttribs] by 2 (in a build with
    [JUCE_OPENGL3]) + 13 + 5 (with multisampling), keeps the length of the
    array, and writes outside the array exactly when the array has fewer
    slots than that. *)
Theorem createAttribs_overrun_iff_too_short (JUCE_OPENGL3 : bool)
    (array : list NSOpenGLPixelFormatAttribute) (version : OpenGLVersion)
    (pf : OpenGLPixelFormat) (ms : bool) :
  let b := createAttribs JUCE_OPENGL3 array version pf ms in
  numAttribs b = entriesWritten JUCE_OPENGL3 ms /\
  length (attribs b) = length array /\
  overrun b = negb (entriesWritten JUCE_OPENGL3 ms <=? length array)%nat.
Proof.
  intros b. subst b. rewrite createAttribs_putAll.
  rewrite putAll_numAttribs, putAll_length, putAll_overrun, blocks_length.
  unfold entriesWritten. simpl. repeat split.
  by destruct JUCE_OPENGL3, ms.
Qed.

(** X2.  In an array with room for the entries, what [createAttribs] writes
    does not depend on what the array held before, and the slots after the
    last entry keep their old content. *)
Theorem createAttribs_ignores_old_content (JUCE_OPENGL3 : bool)
    (array1 array2 : list NSOpenGLPixelFormatAttribute) (version : OpenGLVersion)
    (pf : OpenGLPixelFormat) (ms : bool) :
  (entriesWritten JUCE_OPENGL3 ms <= length array1)%nat ->
  (entriesWritten JUCE_OPENGL3 ms <= length array2)%nat ->
  let b1 := createAttribs JUCE_OPENGL3 array1 version pf ms in
  let b2 := createAttribs JUCE_OPENGL3 array2 version pf ms in
  written b1 = written b2 /\
  drop (entriesWritten JUCE_OPENGL3 ms) (attribs b1)
    = drop (entriesWritten JUCE_OPENGL3 ms) array1.
Proof.
  intros H1 H2 b1 b2. subst b1 b2. rewrite !createAttribs_putAll.
  pose proof (blocks_length JUCE_OPENGL3 version pf ms) as Hbl.
  fold (entriesWritten JUCE_OPENGL3 ms) in Hbl.
  set (xs := profileAttribs JUCE_OPENGL3 version ++ baseAttribs pf ++ multisampleAttribs ms pf)
    in *.
  destruct (putAll_fits xs {| attribs := array1; numAttribs := 0; overrun := false |})
    as (Hw1 & _ & _ & _ & Hd1); [simpl; lia|].
  destruct (putAll_fits xs {| attribs := array2; numAttribs := 0; overrun := false |})
    as (Hw2 & _ & _ & _ & _); [simpl; lia|].
  rewrite Hw1, Hw2. split; [done|].
  simpl in Hd1. by rewrite Hbl in Hd1.
Qed.

Lemma createAttribs_ignores_old_content_witness :
  let junk := replicate 30 NSOpenGLPFASamples in
  written (createAttribs true junk openGL3_2 samplePixelFormat true)
  = written (createAttribs true zeroedAttribs openGL3_2 samplePixelFormat true) /\
  drop 20 (attribs (createAttribs true junk openGL3_2 samplePixelFormat true))
  = replicate 10 NSOpenGLPFASamples.
Proof.
  intros junk.
  apply (createAttribs_ignores_old_content true junk zeroedAttribs openGL3_2
           samplePixelFormat true); vm_compute; lia.
Defined.

(** X3.  The attribute list that the constructor hands to the platform with
    its first call has 64 slots: the entries of [createAttribs] in order,
    then zeros only. *)
Theorem NativeContext_new_attribute_list (JUCE_OPENGL3 : bool) (component : ptr)
    (pf : OpenGLPixelFormat) (share : ptr) (ms : bool) (version : OpenGLVersion)
    (p0 : Platform) :
  calls (snd (NativeContext_new JUCE_OPENGL3 component pf share ms version p0))
    !! length (calls p0)
  = Some (PixelFormatCreated (Npos (nextHandle p0))
            (profileAttribs JUCE_OPENGL3 version ++ baseAttribs pf
             ++ multisampleAttribs ms pf
             ++ replicate (attribsCapacity - entriesWritten JUCE_OPENGL3 ms)
                          (AttribValue 0))).
Proof.
  destruct (createAttribs_fits JUCE_OPENGL3 version pf zeroedAttribs ms)
    as (Hw & Hn & _ & _ & Hd).
  { unfold zeroedAttribs. rewrite length_replicate. unfold attribsCapacity. lia. }
  set (b := createAttribs JUCE_OPENGL3 zeroedAttribs version pf ms) in *.
  assert (Hall : attribs b
                 = profileAttribs JUCE_OPENGL3 version ++ baseAttribs pf
                   ++ multisampleAttribs ms pf
                   ++ replicate (attribsCapacity - entriesWritten JUCE_OPENGL3 ms)
                                (AttribValue 0)).
  { rewrite <- (take_drop (numAttribs b) (attribs b)).
    fold (written b). rewrite Hw, Hd.
    unfold zeroedAttribs. rewrite drop_replicate, Hn.
    by rewrite <- !app_assoc. }
  unfold NativeContext_new, bind, ret, log, newHandle. simpl.
  fold b. rewrite Hall.
  rewrite <- !app_assoc.
  rewrite lookup_app_r by lia. by rewrite Nat.sub_diag.
Qed.

Lemma to_uint32_stored z :
  in_int z -> to_uint32 z = if 0 <=? z then z else z + 2 ^ 32.
Proof.
  unfold in_int, INT_MIN, INT_MAX, to_uint32. intros H.
  destruct (Z.leb_spec 0 z).
  - apply Z.mod_small. lia.
  - symmetry. apply (Z.mod_unique_pos _ _ (-1)); lia.
Qed.

(** X4.  The alpha, depth and stencil sizes reach the platform as the
    request's own numbers when these are non-negative; a negative [int] is
    stored as that number plus 2^32, the image of the unsigned cast. *)
Theorem createAttribs_plain_sizes (JUCE_OPENGL3 : bool) (version : OpenGLVersion)
    (pf : OpenGLPixelFormat) (ms : bool) :
  let w := written (createAttribs JUCE_OPENGL3 zeroedAttribs version pf ms) in
  let stored z := Some (AttribValue (if 0 <=? z then z else z + 2 ^ 32)) in
  in_int (alphaBits pf) -> in_int (depthBufferBits pf) -> in_int (stencilBufferBits pf) ->
  valueOf NSOpenGLPFAAlphaSize w = stored (alphaBits pf) /\
  valueOf NSOpenGLPFADepthSize w = stored (depthBufferBits pf) /\
  valueOf NSOpenGLPFAStencilSize w = stored (stencilBufferBits pf).
Proof.
  intros w stored Ha Hd Hs. subst w stored. cbv beta.
  rewrite <- !to_uint32_stored by done.
  rewrite written_zeroed.
  destruct JUCE_OPENGL3, ms, version; repeat split; reflexivity.
Qed.

Lemma createAttribs_plain_sizes_witness :
  let pf := {| redBits := 8; greenBits := 8; blueBits := 8; alphaBits := 0;
               depthBufferBits := -1; stencilBufferBits := 8;
               accumulationBufferRedBits := 0; accumulationBufferGreenBits := 0;
               accumulationBufferBlueBits := 0; accumulationBufferAlphaBits := 0;
               multisamplingLevel := 0 |} in
  let w := written (createAttribs false zeroedAttribs defaultGLVersion pf false) in
  valueOf NSOpenGLPFAAlphaSize w = Some (AttribValue 0) /\
  valueOf NSOpenGLPFADepthSize w = Some (AttribValue 4294967295) /\
  valueOf NSOpenGLPFAStencilSize w = Some (AttribValue 8).
Proof.
  intros pf w.
  apply (createAttribs_plain_sizes false defaultGLVersion pf false);
    vm_compute; split; discriminate.
Defined.

(** ** The pacer over time *)

(** The only platform call of one pacer run is the sleep of its sleep branch. *)
Lemma sleepIfRenderingTooFast_platform now nc p :
  snd (sleepIfRenderingTooFast now nc p)
  = if (0 <? minSwapTimeMs nc)
       && isPositiveAndBelow (elapsedSince (lastSwapTime nc) now)
                             (int_sub (minSwapTimeMs nc) 3)
       && (3 <? underrunCounter nc)
    then snd (log (ThreadSleep (int_sub (minSwapTimeMs nc)
                                        (elapsedSince (lastSwapTime nc) now))) p)
    else p.
Proof.
  unfold sleepIfRenderingTooFast.
  destruct (0 <? minSwapTimeMs nc); [|done]. simpl.
  destruct (isPositiveAndBelow _ _); [|done].
  by destruct (3 <? underrunCounter nc).
Qed.

Lemma sleepIfRenderingTooFast_counter now nc p :
  underrunCounter (fst (sleepIfRenderingTooFast now nc p))
  = if 0 <? minSwapTimeMs nc then
      if isPositiveAndBelow (elapsedSince (lastSwapTime nc) now)
                            (int_sub (minSwapTimeMs nc) 3)
      then if 3 <? underrunCounter nc then underrunCounter nc
           else int_add (underrunCounter nc) 1
      else 0
    else underrunCounter nc.
Proof.
  unfold sleepIfRenderingTooFast.
  destruct (0 <? minSwapTimeMs nc); [|done]. simpl.
  destruct (isPositiveAndBelow _ _); [|done].
  by destruct (3 <? underrunCounter nc).
Qed.

Lemma sleepIfRenderingTooFast_lastSwapTime now nc p :
  lastSwapTime (fst (sleepIfRenderingTooFast now nc p))
  = if 0 <? minSwapTimeMs nc then now else lastSwapTime nc.
Proof.
  unfold sleepIfRenderingTooFast.
  destruct (0 <? minSwapTimeMs nc); [|done]. simpl.
  destruct (isPositiveAndBelow _ _); [|done].
  by destruct (3 <? underrunCounter nc).
Qed.

(** While the counter is still counting up, runs make no platform call. *)
Lemma paceAll_counting nows : forall nc p,
  0 <= underrunCounter nc ->
  Z.of_nat (length nows) + underrunCounter nc <= 4 ->
  snd (paceAll nows nc p) = p /\
  0 <= underrunCounter (fst (paceAll nows nc p))
    <= Z.of_nat (length nows) + underrunCounter nc.
Proof.
  induction nows as [|now nows IH]; intros nc p H0 Hroom.
  - simpl. split; [done|]. simpl. lia.
  - rewrite paceAll_cons. simpl length in *.
    pose proof (sleepIfRenderingTooFast_platform now nc p) as Hp.
    pose proof (sleepIfRenderingTooFast_counter now nc p) as Hc.
    assert (Hlow : (3 <? underrunCounter nc) = false) by (apply Z.ltb_ge; lia).
    rewrite Hlow, andb_false_r in Hp. rewrite Hlow in Hc.
    rewrite int_add_exact in Hc by (unfold in_int, INT_MIN, INT_MAX; lia).
    rewrite Hp.
    assert (Hnext : 0 <= underrunCounter (fst (sleepIfRenderingTooFast now nc p))
                      <= underrunCounter nc + 1).
    { rewrite Hc. destruct (0 <? minSwapTimeMs nc); [|lia].
      destruct (isPositiveAndBelow _ _); lia. }
    destruct (IH (fst (sleepIfRenderingTooFast now nc p)) p) as [Hq Hb]; [lia..|].
    split; [done|]. lia.
Qed.

(** X5.  Starting with the counter at [c] in 0..4, the next [4 - c] runs of
    the pacer make no platform call at all, whatever the clock readings and
    the configured interval: the pacer never sleeps before it has seen four
    fast swaps in a row. *)
Theorem pacer_never_sleeps_while_counting (nows : list float) (nc : NativeContext)
    (p : Platform) :
  0 <= underrunCounter nc ->
  Z.of_nat (length nows) + underrunCounter nc <= 4 ->
  snd (paceAll nows nc p) = p.
Proof. intros H0 Hroom. by apply paceAll_counting. Qed.

Lemma pacer_never_sleeps_while_counting_witness :
  snd (paceAll [2%float; 2.5%float; 3%float; 3.5%float] (fst pacedContext)
               (snd pacedContext))
  = snd pacedContext.
Proof.
  apply (pacer_never_sleeps_while_counting
           [2%float; 2.5%float; 3%float; 3.5%float] (fst pacedContext) (snd pacedContext));
    vm_compute; discriminate.
Defined.

(** X6.  After a run of the enabled pacer whose [elapsed] is not in
    [0, minSwapTimeMs - 3), that run and the four runs after it make no
    platform call: one slow swap buys four swaps without a sleep. *)
Theorem pacer_recovers_after_slow_swap (now : float) (later : list float)
    (nc : NativeContext) (p : Platform) :
  0 < minSwapTimeMs nc ->
  isPositiveAndBelow (elapsedSince (lastSwapTime nc) now)
                     (int_sub (minSwapTimeMs nc) 3) = false ->
  (length later <= 4)%nat ->
  snd (paceAll (now :: later) nc p) = p.
Proof.
  intros Hmin Hslow Hlen. rewrite paceAll_cons.
  rewrite sleepIfRenderingTooFast_resets by done. simpl.
  apply paceAll_counting; simpl; lia.
Qed.

Lemma pacer_recovers_after_slow_swap_witness :
  let busy := paceAll [2%float; 4%float; 6%float; 8%float; 10%float]
                      (fst pacedContext) (snd pacedContext) in
  underrunCounter (fst busy) = 4 /\
  snd (paceAll [40%float; 41%float; 42%float; 43%float; 44%float] (fst busy) (snd busy))
  = snd busy.
Proof.
  intros busy. split; [reflexivity|].
  apply (pacer_recovers_after_slow_swap 40%float
           [41%float; 42%float; 43%float; 44%float] (fst busy) (snd busy)).
  - reflexivity.
  - reflexivity.
  - simpl. lia.
Defined.

(** X7.  While the counter is above 3 and the swaps stay too fast, every run
    sleeps, for [minSwapTimeMs - elapsed] milliseconds, and the counter stays
    where it is: the throttle holds until a slow swap comes. *)
Theorem pacer_throttles_every_fast_swap (nows : list float) :
  forall (nc : NativeContext) (p : Platform),
  0 < minSwapTimeMs nc <= INT_MAX ->
  3 < underrunCounter nc ->
  allTooFast (int_sub (minSwapTimeMs nc) 3) (lastSwapTime nc) nows ->
  let r := paceAll nows nc p in
  underrunCounter (fst r) = underrunCounter nc /\
  calls (snd r)
  = calls p ++ map (fun elapsed => ThreadSleep (minSwapTimeMs nc - elapsed))
                   (elapsedAll (lastSwapTime nc) nows).
Proof.
  induction nows as [|now nows IH]; intros nc p Hmin Hhigh Hfast r; subst r.
  - simpl. by rewrite app_nil_r.
  - destruct Hfast as [Hnow Hrest]. rewrite paceAll_cons.
    rewrite sleepIfRenderingTooFast_sleeps by (done || lia).
    cbn [fst snd]. 
    assert (Hexact : int_sub (minSwapTimeMs nc) (elapsedSince (lastSwapTime nc) now)
                     = minSwapTimeMs nc - elapsedSince (lastSwapTime nc) now).
    { unfold isPositiveAndBelow in Hnow. apply andb_prop in Hnow as [Hge Hlt].
      apply Z.leb_le in Hge. apply Z.ltb_lt in Hlt.
      rewrite int_sub_exact in Hlt by (unfold in_int, INT_MIN, INT_MAX in *; lia).
      apply int_sub_exact. unfold in_int, INT_MIN, INT_MAX in *. lia. }
    rewrite Hexact.
    destruct (IH (set_lastSwapTime now nc)
                 (snd (log (ThreadSleep (minSwapTimeMs nc
                                         - elapsedSince (lastSwapTime nc) now)) p)))
      as [Hc Hcalls]; [done..|].
    split; [exact Hc|]. rewrite Hcalls. simpl. by rewrite <- app_assoc.
Qed.

Lemma pacer_throttles_every_fast_swap_witness :
  let busy := paceAll [2%float; 4%float; 6%float; 8%float]
                      (fst pacedContext) (snd pacedContext) in
  sleeps (calls (snd (paceAll [10%float; 15%float; 27%float] (fst busy) (snd busy))))
  = [14; 11; 4].
Proof.
  intros busy.
  destruct (pacer_throttles_every_fast_swap [10%float; 15%float; 27%float]
              (fst busy) (snd busy)) as [_ Hcalls].
  - vm_compute. split; [done|discriminate].
  - reflexivity.
  - vm_compute. done.
  - rewrite Hcalls. reflexivity.
Defined.

(** X8.  Every sleep of the pacer lasts more than 3 ms and at most
    [minSwapTimeMs] ms, and a sequence of runs sleeps at most once per run. *)
Theorem pacer_sleep_is_bounded (nows : list float) :
  forall (nc : NativeContext) (p : Platform),
  minSwapTimeMs nc <= INT_MAX ->
  exists new : list Z,
    calls (snd (paceAll nows nc p)) = calls p ++ map ThreadSleep new /\
    Forall (fun d => 3 < d <= minSwapTimeMs nc) new /\
    (length new <= length nows)%nat.
Proof.
  induction nows as [|now nows IH]; intros nc p Hmax.
  - exists []. simpl. by rewrite app_nil_r.
  - rewrite paceAll_cons.
    destruct (IH (fst (sleepIfRenderingTooFast now nc p))
                 (snd (sleepIfRenderingTooFast now nc p))) as (new & Hcalls & Hall & Hlen).
    { by rewrite sleepIfRenderingTooFast_minSwapTimeMs. }
    rewrite sleepIfRenderingTooFast_minSwapTimeMs in Hall.
    rewrite Hcalls, sleepIfRenderingTooFast_platform.
    destruct (0 <? minSwapTimeMs nc) eqn:Hmin;
      [|exists new; simpl; split; [done | split; [done | lia]]].
    destruct (isPositiveAndBelow _ _) eqn:Hfast;
      [|exists new; simpl; split; [done | split; [done | lia]]].
    destruct (3 <? underrunCounter nc);
      [|exists new; simpl; split; [done | split; [done | lia]]].
    apply Z.ltb_lt in Hmin.
    unfold isPositiveAndBelow in Hfast. apply andb_prop in Hfast as [Hge Hlt].
    apply Z.leb_le in Hge. apply Z.ltb_lt in Hlt.
    rewrite int_sub_exact in Hlt by (unfold in_int, INT_MIN, INT_MAX in *; lia).
    rewrite int_sub_exact by (unfold in_int, INT_MIN, INT_MAX in *; lia).
    exists ((minSwapTimeMs nc - elapsedSince (lastSwapTime nc) now) :: new).
    simpl. rewrite <- app_assoc.
    split; [done | split; [constructor; [lia | done] | lia]].
Qed.

Lemma pacer_sleep_is_bounded_witness :
  exists new : list Z,
    calls (snd (paceAll [2%float; 4%float; 6%float; 8%float; 10%float; 33%float; 34%float]
                        (fst pacedContext) (snd pacedContext)))
    = calls (snd pacedContext) ++ map ThreadSleep new /\
    Forall (fun d => 3 < d <= 16) new /\ (length new <= 7)%nat.
Proof.
  apply (pacer_sleep_is_bounded
           [2%float; 4%float; 6%float; 8%float; 10%float; 33%float; 34%float]
           (fst pacedContext) (snd pacedContext)).
  vm_compute. discriminate.
Defined.

(** X9.  With pacing enabled, [lastSwapTime] after a sequence of runs is the
    last clock reading, whichever branches were taken; it follows the clock
    even when a reading is lower than the one before. *)
Theorem pacer_lastSwapTime_follows_clock (nows : list float) :
  forall (nc : NativeContext) (p : Platform),
  0 < minSwapTimeMs nc ->
  lastSwapTime (fst (paceAll nows nc p)) = default (lastSwapTime nc) (last nows).
Proof.
  induction nows as [|now nows IH]; intros nc p Hmin; [done|].
  rewrite paceAll_cons, IH
    by (by rewrite sleepIfRenderingTooFast_minSwapTimeMs).
  rewrite sleepIfRenderingTooFast_lastSwapTime.
  apply Z.ltb_lt in Hmin as ->.
  destruct nows as [|now' nows]; [done|].
  rewrite last_cons_cons, (last_cons now' nows).
  by destruct (last nows).
Qed.

Lemma pacer_lastSwapTime_follows_clock_witness :
  lastSwapTime (fst (paceAll [50%float; 20%float] (fst pacedContext) (snd pacedContext)))
  = 20%float.
Proof.
  apply (pacer_lastSwapTime_follows_clock [50%float; 20%float]
           (fst pacedContext) (snd pacedContext)).
  reflexivity.
Defined.

Lemma perform_frame c nc p :
  let r := perform c nc p in
  renderContext (fst r) = renderContext nc /\
  pixelFormat (fst r) = pixelFormat nc /\
  view (fst r) = view nc /\
  displayLinkTarget (fst r) = displayLinkTarget nc /\
  displayLinkRef (fst r) = displayLinkRef nc /\
  currentContext (snd r) = currentContext p /\
  displayLinks (snd r) = displayLinks p.
Proof.
  destruct c as [now|now|n]; simpl;
    unfold swapBuffers, setSwapInterval, sleepIfRenderingTooFast, bind, ret, log,
      Thread_sleep; simpl;
    repeat match goal with |- context [if ?c then _ else _] => destruct c; simpl end;
    done.
Qed.

(** X10.  Swapping buffers, pacing and changing the swap interval never touch
    the platform objects of the context, its display link, the thread's
    current context or the display links of the platform; so [isActive]
    answers after any such sequence what it answered before. *)
Theorem pacing_leaves_activation_and_links_alone (cs : list PacingCall) :
  forall (nc : NativeContext) (p : Platform),
  let r := performAll cs nc p in
  renderContext (fst r) = renderContext nc /\
  pixelFormat (fst r) = pixelFormat nc /\
  view (fst r) = view nc /\
  displayLinkTarget (fst r) = displayLinkTarget nc /\
  displayLinkRef (fst r) = displayLinkRef nc /\
  currentContext (snd r) = currentContext p /\
  displayLinks (snd r) = displayLinks p /\
  fst (isActive (fst r) (snd r)) = fst (isActive nc p).
Proof.
  induction cs as [|c cs IH]; intros nc p r; subst r; [done|].
  rewrite performAll_cons.
  destruct (perform_frame c nc p) as (H1 & H2 & H3 & H4 & H5 & H6 & H7).
  destruct (IH (fst (perform c nc p)) (snd (perform c nc p)))
    as (I1 & I2 & I3 & I4 & I5 & I6 & I7 & I8).
  rewrite I1, I2, I3, I4, I5, I6, I7, I8, H1, H2, H3, H4, H5, H6, H7.
  repeat split. unfold isActive, bind, ret, getCurrentContext. simpl.
  by rewrite H1, H6.
Qed.

(** X11.  [setSwapInterval (n)] for 1 <= n <= 2147483 returns true and sets
    [minSwapTimeMs] to the whole part of n * 1000 / 60, which lies between
    16 n and 17 n: pacing is enabled.  The underrun counter and
    [lastSwapTime] are left as they were. *)
Theorem setSwapInterval_enables_pacing (n : Z) (nc : NativeContext) (p : Platform) :
  1 <= n <= 2147483 ->
  let r := setSwapInterval n nc p in
  fst (fst r) = true /\
  minSwapTimeMs (snd (fst r)) = n * 1000 / 60 /\
  16 * n <= minSwapTimeMs (snd (fst r)) <= 17 * n /\
  underrunCounter (snd (fst r)) = underrunCounter nc /\
  lastSwapTime (snd (fst r)) = lastSwapTime nc /\
  calls (snd r) = calls p ++ [SwapIntervalSet (renderContext nc) n].
Proof.
  intros Hn r. subst r. unfold setSwapInterval, bind, ret, log. simpl.
  unfold int_div, int_mul.
  rewrite (wrap_int_id (n * 1000)) by (unfold in_int, INT_MIN, INT_MAX; lia).
  rewrite Z.quot_div_nonneg by lia.
  assert (Hq : 16 * n <= n * 1000 / 60 <= 17 * n).
  { split.
    - apply Z.div_le_lower_bound; lia.
    - apply Z.div_le_upper_bound; lia. }
  rewrite wrap_int_id by (unfold in_int, INT_MIN, INT_MAX; lia).
  repeat split; lia.
Qed.

Lemma setSwapInterval_enables_pacing_witness :
  minSwapTimeMs (snd (fst (setSwapInterval 2 (fst freshContext) (snd freshContext)))) = 33.
Proof.
  destruct (setSwapInterval_enables_pacing 2 (fst freshContext) (snd freshContext))
    as (_ & Hmin & _); [lia|].
  rewrite Hmin. reflexivity.
Defined.

Lemma paceAll_disabled nows : forall nc p,
  minSwapTimeMs nc <= 0 -> paceAll nows nc p = (nc, p).
Proof.
  induction nows as [|now nows IH]; intros nc p Hoff; [done|].
  by rewrite paceAll_cons, sleepIfRenderingTooFast_disabled, IH.
Qed.

(** X12.  [setSwapInterval (n)] for -2147483 <= n <= 0 switches pacing off:
    the pacer runs that follow change nothing and never sleep.  The underrun
    counter keeps the value it had, it is not reset. *)
Theorem setSwapInterval_disables_pacing (n : Z) (nc : NativeContext) (p : Platform)
    (nows : list float) :
  - 2147483 <= n <= 0 ->
  let r := setSwapInterval n nc p in
  minSwapTimeMs (snd (fst r)) <= 0 /\
  underrunCounter (snd (fst r)) = underrunCounter nc /\
  paceAll nows (snd (fst r)) (snd r) = (snd (fst r), snd r).
Proof.
  intros Hn r.
  assert (Hoff : minSwapTimeMs (snd (fst r)) <= 0).
  { subst r. unfold setSwapInterval, bind, ret, log. simpl.
    unfold int_div, int_mul.
    rewrite (wrap_int_id (n * 1000)) by (unfold in_int, INT_MIN, INT_MAX; lia).
    pose proof (Z.quot_opp_l (- (n * 1000)) 60 ltac:(lia)) as Hopp.
    rewrite Z.opp_involutive in Hopp.
    pose proof (Z.quot_pos (- (n * 1000)) 60 ltac:(lia) ltac:(lia)).
    pose proof (Z.quot_le_upper_bound (- (n * 1000)) 60 (- (n * 1000))
                  ltac:(lia) ltac:(lia)).
    rewrite wrap_int_id by (unfold in_int, INT_MIN, INT_MAX; lia).
    lia. }
  split; [exact Hoff|]. split; [done|].
  by apply paceAll_disabled.
Qed.

Lemma setSwapInterval_disables_pacing_witness :
  let busy := paceAll [2%float; 4%float; 6%float; 8%float]
                      (fst pacedContext) (snd pacedContext) in
  let r := setSwapInterval 0 (fst busy) (snd busy) in
  underrunCounter (snd (fst r)) = 4 /\
  paceAll [9%float; 10%float] (snd (fst r)) (snd r) = (snd (fst r), snd r).
Proof.
  intros busy r.
  destruct (setSwapInterval_disables_pacing 0 (fst busy) (snd busy)
              [9%float; 10%float]) as (_ & Hc & Hnoop); [lia|].
  split; [exact Hc | exact Hnoop].
Defined.

(** ** The display link over time *)

(** X13.  When the display links of the platform are those of the context
    (none while [displayLinkRef] is null, that one otherwise), this stays so
    through any sequence of [setDisplayLinkTarget] calls, null or not, and the
    platform never holds more than one display link. *)
Theorem displayLinks_never_more_than_one (targets : list ptr) (nc : NativeContext)
    (p : Platform) :
  ownsItsLinks nc p ->
  let r := setDisplayLinkTargets targets nc p in
  ownsItsLinks (fst r) (snd r) /\ (size (displayLinks (snd r)) <= 1)%nat.
Proof. apply setDisplayLinkTargets_at_most_one. Qed.

Lemma displayLinks_never_more_than_one_witness :
  let r := setDisplayLinkTargets [7%N; 9%N; nullptr; 3%N; 3%N]
             (fst freshContext) (snd freshContext) in
  ownsItsLinks (fst r) (snd r) /\ (size (displayLinks (snd r)) <= 1)%nat.
Proof.
  apply (displayLinks_never_more_than_one [7%N; 9%N; nullptr; 3%N; 3%N]
           (fst freshContext) (snd freshContext)).
  reflexivity.
Defined.

(** X14.  After [setDisplayLinkTarget (t)] the member [displayLinkTarget] is
    [t], and the link handle is null exactly when [t] is: a non-null target
    always leaves a link behind, a null target never does. *)
Theorem setDisplayLinkTarget_members (target : ptr) (nc : NativeContext) (p : Platform) :
  let r := setDisplayLinkTarget target nc p in
  displayLinkTarget (fst r) = target /\
  (displayLinkRef (fst r) =? nullptr)%N = (target =? nullptr)%N.
Proof.
  intros r. subst r.
  destruct (N.eq_dec target nullptr) as [->|Ht];
    destruct (N.eq_dec (displayLinkRef nc) nullptr) as [Href|Href].
  - rewrite setDisplayLinkTarget_null_without_link by done. simpl.
    by rewrite Href.
  - by rewrite setDisplayLinkTarget_null_with_link.
  - rewrite setDisplayLinkTarget_creates by done. simpl.
    split; [done|]. symmetry. by apply N.eqb_neq.
  - rewrite setDisplayLinkTarget_restarts by done. simpl.
    split; [done|]. apply N.eqb_neq in Href as ->. symmetry. by apply N.eqb_neq.
Qed.

Lemma vsync_no_link p : displayLinks p = ∅ -> vsync p = (tt, p).
Proof. intros H. unfold vsync. by rewrite H, map_fold_empty. Qed.

Lemma targetsCalled_app l1 l2 :
  targetsCalled (l1 ++ l2) = targetsCalled l1 ++ targetsCalled l2.
Proof. apply omap_app. Qed.

(** X15.  On a context without a link, registering a target creates one
    started link whose callback carries that target: the next display refresh
    calls the target's [displayLink], once. *)
Theorem registered_target_is_called (target : ptr) (nc : NativeContext) (p : Platform) :
  target <> nullptr ->
  displayLinkRef nc = nullptr ->
  displayLinks p = ∅ ->
  let r := (do nc <- setDisplayLinkTarget target nc; exec vsync; ret nc) p in
  displayLinkRef (fst r) = Npos (nextHandle p) /\
  displayLinks (snd r)
  = {[ Npos (nextHandle p) := {| callbackContext := Some target; running := true |} ]} /\
  targetsCalled (calls (snd r)) = targetsCalled (calls p) ++ [target].
Proof.
  intros Ht Href Hlinks r. subst r. unfold bind.
  rewrite setDisplayLinkTarget_creates by done. cbv beta iota.
  rewrite Hlinks, insert_empty.
  erewrite vsync_single_link by reflexivity.
  unfold ret, log.
  cbn [fst snd displayLinks calls displayLinkRef set_displayLinkTarget set_displayLinkRef].
  repeat split. rewrite !targetsCalled_app. simpl. by rewrite app_nil_r.
Qed.

Lemma registered_target_is_called_witness :
  let r := (do nc <- setDisplayLinkTarget 7%N (fst freshContext); exec vsync; ret nc)
             (snd freshContext) in
  targetsCalled (calls (snd r)) = [7%N].
Proof.
  intros r.
  apply (registered_target_is_called 7%N (fst freshContext) (snd freshContext));
    done.
Defined.

(** X16.  Clearing the target in between does replace it: after registering
    [t1], clearing, and registering [t2], a display refresh calls [t2] and not
    [t1]; and after registering [t1] and clearing, no link is left and a
    refresh calls nobody. *)
Theorem clearing_then_registering_retargets (t1 t2 : ptr) (nc : NativeContext)
    (p : Platform) :
  t1 <> nullptr -> t2 <> nullptr ->
  displayLinkRef nc = nullptr ->
  displayLinks p = ∅ ->
  let cleared := (do nc <- setDisplayLinkTarget t1 nc;
                  do nc <- setDisplayLinkTarget nullptr nc;
                  exec vsync; ret nc) p in
  let replaced := (do nc <- setDisplayLinkTarget t1 nc;
                   do nc <- setDisplayLinkTarget nullptr nc;
                   do nc <- setDisplayLinkTarget t2 nc;
                   exec vsync; ret nc) p in
  displayLinks (snd cleared) = ∅ /\
  targetsCalled (calls (snd cleared)) = targetsCalled (calls p) /\
  displayLinkTarget (fst replaced) = t2 /\
  targetsCalled (calls (snd replaced)) = targetsCalled (calls p) ++ [t2].
Proof.
  intros H1 H2 Href Hlinks cleared replaced. subst cleared replaced. unfold bind.
  rewrite setDisplayLinkTarget_creates by done. cbv beta iota.
  rewrite setDisplayLinkTarget_null_with_link by done. cbv beta iota.
  cbn [displayLinkRef set_displayLinkTarget set_displayLinkRef displayLinks calls
       currentContext nextHandle].
  rewrite Hlinks, delete_insert_eq, delete_empty.
  rewrite vsync_no_link by done.
  rewrite setDisplayLinkTarget_creates by done. cbv beta iota.
  cbn [displayLinks nextHandle calls currentContext].
  rewrite insert_empty.
  erewrite vsync_single_link by reflexivity.
  unfold ret, log.
  cbn [fst snd displayLinks calls displayLinkTarget set_displayLinkTarget].
  rewrite !targetsCalled_app. simpl. rewrite !app_nil_r.
  done.
Qed.

Lemma clearing_then_registering_retargets_witness :
  let replaced := (do nc <- setDisplayLinkTarget 7%N (fst freshContext);
                   do nc <- setDisplayLinkTarget nullptr nc;
                   do nc <- setDisplayLinkTarget 9%N nc;
                   exec vsync; ret nc) (snd freshContext) in
  targetsCalled (calls (snd replaced)) = [9%N].
Proof.
  intros replaced.
  apply (clearing_then_registering_retargets 7%N 9%N (fst freshContext)
           (snd freshContext)); done.
Defined.

(** X17.  The destructor makes no display-link call.  A link that is active
    when the context is destroyed stays on the platform, started, and the
    next display refresh still calls the registered target. *)
Theorem destructor_leaves_display_link_running (target : ptr) (nc : NativeContext)
    (p : Platform) :
  target <> nullptr ->
  displayLinkRef nc = nullptr ->
  displayLinks p = ∅ ->
  let r := (do nc <- setDisplayLinkTarget target nc;
            do nc <- NativeContext_delete nc;
            exec vsync; ret nc) p in
  renderContext (fst r) = nullptr /\
  displayLinkTarget (fst r) = target /\
  displayLinks (snd r)
  = {[ Npos (nextHandle p) := {| callbackContext := Some target; running := true |} ]} /\
  targetsCalled (calls (snd r)) = targetsCalled (calls p) ++ [target].
Proof.
  intros Ht Href Hlinks r. subst r. unfold bind.
  rewrite setDisplayLinkTarget_creates by done. cbv beta iota.
  unfold NativeContext_delete, bind, ret, log. cbv beta iota.
  cbn [fst snd displayLinks calls currentContext nextHandle].
  rewrite Hlinks, insert_empty.
  erewrite vsync_single_link by reflexivity.
  unfold log. cbn [fst snd displayLinks calls].
  repeat split. rewrite !targetsCalled_app. simpl. by rewrite !app_nil_r.
Qed.

Lemma destructor_leaves_display_link_running_witness :
  let r := (do nc <- setDisplayLinkTarget 7%N (fst freshContext);
            do nc <- NativeContext_delete nc;
            exec vsync; ret nc) (snd freshContext) in
  targetsCalled (calls (snd r)) = [7%N].
Proof.
  intros r.
  apply (destructor_leaves_display_link_running 7%N (fst freshContext)
           (snd freshContext)); done.
Defined.

(** ** Activation *)

(** X18.  [makeActive] succeeds exactly when the view has a context, and then
    makes that context, whichever it is, the current one.  So [isActive]
    right after a successful [makeActive] is true exactly when the view's
    context is this object's [renderContext]; after a failed [makeActive] it
    answers what it answered before.  The display links are not touched. *)
Theorem makeActive_then_isActive (contextsView viewsContext : ptr)
    (nc : NativeContext) (p : Platform) :
  let r := makeActive contextsView viewsContext nc p in
  fst r = negb (viewsContext =? nullptr)%N /\
  currentContext (snd r)
  = (if (viewsContext =? nullptr)%N then currentContext p else viewsContext) /\
  displayLinks (snd r) = displayLinks p /\
  fst (isActive nc (snd r))
  = (if (viewsContext =? nullptr)%N then fst (isActive nc p)
     else (viewsContext =? renderContext nc)%N).
Proof.
  intros r. subst r.
  unfold makeActive, isActive, bind, ret, log, makeCurrentContext, getCurrentContext.
  destruct (contextsView =? view nc)%N, (viewsContext =? nullptr)%N; done.
Qed.

(** For the binding the constructor sets up, [makeActive] makes the context
    active; for a view bound to another context it succeeds without doing so. *)
Example makeActive_on_fresh_context :
  let nc := fst freshContext in
  let p := snd freshContext in
  fst (makeActive (view nc) (renderContext nc) nc p) = true /\
  fst (isActive nc (snd (makeActive (view nc) (renderContext nc) nc p))) = true /\
  fst (makeActive (view nc) 99%N nc p) = true /\
  fst (isActive nc (snd (makeActive (view nc) 99%N nc p))) = false.
Proof. vm_compute. done. Qed.

(** X19.  After [shutdownOnRenderThread] no context is current, so
    [isContextActive] is false and [isActive] is the negation of
    [createdOk]: false for a context that was created, true for one whose
    creation failed. *)
Theorem shutdownOnRenderThread_deactivates (nc : NativeContext) (p : Platform) :
  let r := shutdownOnRenderThread nc p in
  fst r = nc /\
  currentContext (snd r) = nullptr /\
  fst (isContextActive (snd r)) = false /\
  fst (isActive nc (snd r)) = negb (createdOk nc).
Proof.
  intros r. subst r.
  unfold shutdownOnRenderThread, deactivateCurrentContext, clearCurrentContext,
    isContextActive, isActive, createdOk, getRawContext, bind, ret, getCurrentContext.
  simpl. repeat split.
  rewrite negb_involutive. by destruct (renderContext nc).
Qed.

(** X20.  Whenever [isActive] is true, [isContextActive] agrees with
    [createdOk]: an active, created context means some context is current;
    [isActive] can only be true with no context current if the render context
    is nil. *)
Theorem isActive_implies_isContextActive (nc : NativeContext) (p : Platform) :
  fst (isActive nc p) = true ->
  fst (isContextActive p) = createdOk nc.
Proof.
  unfold isActive, isContextActive, createdOk, getRawContext, bind, ret,
    getCurrentContext. simpl.
  intros H. apply N.eqb_eq in H. by rewrite H.
Qed.

Lemma isActive_implies_isContextActive_witness :
  let nc := fst freshContext in
  let p := snd (makeActive (view nc) (renderContext nc) nc (snd freshContext)) in
  fst (isActive nc p) = true /\ fst (isContextActive p) = true.
Proof.
  intros nc p.
  assert (Hactive : fst (isActive nc p) = true) by reflexivity.
  split; [exact Hactive|].
  exact (isActive_implies_isContextActive nc p Hactive).
Defined.
